(** * Verification of the UDP reliable-transport clients

    A shallow embedding of [client_tahoe.py], [client_saw.py] and
    [client_burst1.py], and the properties their specification states.

    Conventions of the embedding.
    - Python [int] values are [Z].
    - Clock readings, round-trip samples and the retransmission timeout are
      Python floats: binary64, modelled as the primitive [float].
    - [cwnd] is an [int] during slow start and a float once congestion
      avoidance has divided.  The loop of [Tahoe] holds its value as a
      rational [Q] and adds [1 / cwnd] without rounding: an idealisation,
      used for the control flow and for what holds of every value of
      [cwnd].  What the program computes, on an [int] or in binary64, is
      followed in [Cwnd].  [ssthresh] is [n] or [cwnd // 2], an integral
      value, held as [Z].
    - [outstanding] is an insertion-ordered [dict] whose iteration order the
      code relies on: an association list.  [send_times] is a plain map: a
      [gmap].
    - The socket, the clock and the data source are the environment: each
      loop iteration receives a [world] value with what [time.time()] and
      [s.recvfrom(100)] return during it.
    - Effects are logged in the state: the datagrams handed to [s.sendto],
      the rows given to [trace.write] and the arguments given to
      [datasource.wait_for_data].  Output of [print] is not modelled, and
      [trace.write] is taken to return.
    - Library calls that can raise.  [time.sleep(t)] of the burst client
      raises what the parameter [sleep] says for [t].  In the three loops
      [s.sendto] returns, and so does [s.settimeout] in [Tahoe];
      [Further.iteration_io] is the iteration of [client_tahoe.py] with the
      exceptions these two raise. *)

From Stdlib Require Import ZArith QArith Qround Lqa Floats List Lia.
From stdpp Require Import gmap list.

Local Open Scope Z_scope.

(** ** Python primitives *)

Module Py.

Definition bytes := list Byte.byte.

(** Exceptions the clients can raise.  The first four come from the
    statements of the loops; [ValueError] and [OverflowError] are what
    [time.sleep], [s.settimeout] and the conversion of an [int] to a float
    raise for an argument out of range; [OSError] is what a socket call
    raises.  The [except (socket.timeout, socket.error)] clause catches
    the last one only, and only around [s.recvfrom]. *)
Inductive exn :=
| KeyError | StructError | ZeroDivisionError | TypeError
| ValueError | OverflowError | OSError.

Inductive result (A : Type) :=
| Ok (a : A)
| Raise (e : exn).
Arguments Ok {A} a.
Arguments Raise {A} e.

Definition bind {A B} (r : result A) (k : A -> result B) : result B :=
  match r with
  | Ok a => k a
  | Raise e => Raise e
  end.

(** *** [struct.pack(">II", a, b)] and [struct.unpack(">II", buf)] *)

Definition byte_of_Z (z : Z) : Byte.byte :=
  match Byte.of_N (Z.to_N (z mod 256)) with
  | Some b => b
  | None => Byte.x00
  end.

Definition Z_of_byte (b : Byte.byte) : Z := Z.of_N (Byte.to_N b).

Definition u32_ok (z : Z) : bool := (0 <=? z) && (z <? 2 ^ 32).

(** Four bytes, most significant first. *)
Definition be32 (z : Z) : bytes :=
  [byte_of_Z (Z.shiftr z 24); byte_of_Z (Z.shiftr z 16);
   byte_of_Z (Z.shiftr z 8); byte_of_Z z].

Definition of_be32 (b3 b2 b1 b0 : Byte.byte) : Z :=
  Z.lor (Z.shiftl (Z_of_byte b3) 24)
    (Z.lor (Z.shiftl (Z_of_byte b2) 16)
       (Z.lor (Z.shiftl (Z_of_byte b1) 8) (Z_of_byte b0))).

(** [struct.pack] raises [struct.error] when an argument is outside the
    range of the [I] format. *)
Definition pack_II (a b : Z) : result bytes :=
  if u32_ok a && u32_ok b then Ok (be32 a ++ be32 b) else Raise StructError.

(** [struct.unpack] raises [struct.error] unless the buffer has exactly
    the size of the format, 8 bytes. *)
Definition unpack_II (buf : bytes) : result (Z * Z) :=
  match buf with
  | [a3; a2; a1; a0; b3; b2; b1; b0] =>
      Ok (of_be32 a3 a2 a1 a0, of_be32 b3 b2 b1 b0)
  | _ => Raise StructError
  end.

(** *** Insertion-ordered [dict] with integer keys *)

Section Dict.
Context {V : Type}.

Definition dict := list (Z * V).

Fixpoint dict_get (k : Z) (d : dict) : option V :=
  match d with
  | [] => None
  | (k', v) :: d' => if k' =? k then Some v else dict_get k d'
  end.

(** [k in d.keys()] *)
Definition dict_mem (k : Z) (d : dict) : bool :=
  match dict_get k d with Some _ => true | None => false end.

(** [d[k] = v]: an existing key keeps its position, a new key goes last. *)
Fixpoint dict_set (k : Z) (v : V) (d : dict) : dict :=
  match d with
  | [] => [(k, v)]
  | (k', v') :: d' =>
      if k' =? k then (k, v) :: d' else (k', v') :: dict_set k v d'
  end.

(** [del d[k]] for a key that is present. *)
Fixpoint dict_del (k : Z) (d : dict) : dict :=
  match d with
  | [] => []
  | (k', v') :: d' => if k' =? k then d' else (k', v') :: dict_del k d'
  end.

(** [next(iter(d), default)]: the first key in insertion order. *)
Definition dict_first (d : dict) (default : Z) : Z :=
  match d with
  | [] => default
  | (k, _) :: _ => k
  end.

Definition keys (d : dict) : list Z := map fst d.
End Dict.
Arguments dict V : clear implicits.

End Py.
Import Py.

Notation "'let!' x ':=' r 'in' k" := (bind r (fun x => k))
  (at level 10, x pattern, r at level 100, k at level 200).

(** ** The environment shared by the three clients *)

Module Env.

(** One row of the trace file: [trace.write(seqno, tsent, ackno, tacked)].
    The literal [0] passed for an absent time is the float zero. *)
Record row := Row { r_seqno : Z; r_sent : float; r_ackno : Z; r_acked : float }.

(** What the environment supplies during one iteration of a client's loop. *)
Record world := World {
  now : float;                (* the value of time.time() *)
  recvfrom : option bytes     (* the datagram s.recvfrom returns, if one arrives *)
}.

End Env.
Import Env.

(** ** [client_tahoe.py] *)

Module Tahoe.

(** The local variables of [main], followed by the effect logs. *)
Record st := St {
  start : float;
  timeout : float;
  estimated_rtt : float;
  dev_rtt : float;
  send_times : gmap Z float;
  cwnd : Q;
  ssthresh : Z;
  seqno : Z;
  desired_ackno : Z;
  body : option bytes;
  have_more_data : bool;
  outstanding : dict bytes;
  state : Z;
  sent : list bytes;          (* s.sendto, most recent first *)
  traced : list row;          (* trace.write, most recent first *)
  asked : list Z              (* datasource.wait_for_data, most recent first *)
}.

Definition magic : Z := 0xBAADCAFE.

Definition estimated_rtt_calc (sample_rtt estimated_rtt : float) : float :=
  let a := 0.125%float in
  (a * sample_rtt + (1 - a) * estimated_rtt)%float.

Definition dev_rtt_calc (sample_rtt estimated_rtt dev_rtt : float) : float :=
  let b := 0.25%float in
  (b * abs (sample_rtt - estimated_rtt) + (1 - b) * dev_rtt)%float.

(** The state at the top of the loop, before its first iteration. *)
Definition init (n : Z) (t : float) (start : float) : st :=
  {| start := start;
     timeout := t;
     estimated_rtt := t;
     dev_rtt := 0%float;
     send_times := ∅;
     cwnd := 1%Q;
     ssthresh := n;
     seqno := 0;
     desired_ackno := 0;
     body := None;
     have_more_data := true;
     outstanding := [];
     state := 0;
     sent := [];
     traced := [];
     asked := [] |}.

Definition len (d : dict bytes) : Q := inject_Z (Z.of_nat (length d)).

(** [len(outstanding) >= cwnd] *)
Definition window_full (c : Q) (d : dict bytes) : bool := Qle_bool c (len d).

(** [cwnd < ssthresh] *)
Definition slow_start (s : st) : bool :=
  negb (Qle_bool (inject_Z (ssthresh s)) (cwnd s)).

Section Main.
(** [datasource.wait_for_data]: the payload for a sequence number, or
    [None] when there is no more data.  The module is a collaborator of
    the clients and is taken as a parameter. *)
Variable wait_for_data : Z -> option bytes.

(** state 0: wait for data to be available to send *)
Definition state0 (s : st) : st :=
  let b := wait_for_data (seqno s) in
  {| start := start s; timeout := timeout s;
     estimated_rtt := estimated_rtt s; dev_rtt := dev_rtt s;
     send_times := send_times s; cwnd := cwnd s; ssthresh := ssthresh s;
     seqno := seqno s; desired_ackno := desired_ackno s;
     body := b;
     have_more_data :=
       match b with None => false | Some _ => have_more_data s end;
     outstanding := outstanding s;
     state := match b with None => 2 | Some _ => 1 end;
     sent := sent s; traced := traced s;
     asked := seqno s :: asked s |}.

(** state 1: send one data packet *)
Definition state1 (w : world) (s : st) : result st :=
  let! hdr := pack_II magic (seqno s) in
  match body s with
  | None => Raise TypeError
  | Some b =>
      let pkt := hdr ++ b in
      let tSend := now w in
      let out := dict_set (seqno s) pkt (outstanding s) in
      Ok {| start := start s; timeout := timeout s;
            estimated_rtt := estimated_rtt s; dev_rtt := dev_rtt s;
            send_times := <[seqno s := tSend]> (send_times s);
            cwnd := cwnd s; ssthresh := ssthresh s;
            seqno := seqno s + 1; desired_ackno := desired_ackno s;
            body := body s; have_more_data := have_more_data s;
            outstanding := out;
            state := if window_full (cwnd s) out then 2 else 0;
            sent := pkt :: sent s;
            traced := Row (seqno s) (tSend - start s)%float 0 0%float :: traced s;
            asked := asked s |}
  end.

(** state 2, the [except] clause: the wait for an ACK timed out *)
Definition on_timeout (s : st) : st :=
  {| start := start s;
     timeout := (timeout s * 2)%float;
     estimated_rtt := estimated_rtt s; dev_rtt := dev_rtt s;
     send_times := send_times s;
     cwnd := 1%Q;
     ssthresh := Qfloor (cwnd s / 2);
     seqno := seqno s; desired_ackno := desired_ackno s;
     body := body s; have_more_data := have_more_data s;
     outstanding := outstanding s;
     state := 3;
     sent := sent s; traced := traced s; asked := asked s |}.

(** [cwnd += 1] in slow start, [cwnd += 1 / cwnd] otherwise, on the exact
    value ([Cwnd.grow] has the rounding of the program) *)
Definition grow (s : st) : result Q :=
  if slow_start s then Ok (cwnd s + 1)%Q
  else if Qeq_bool (cwnd s) 0 then Raise ZeroDivisionError
  else Ok (cwnd s + 1 / cwnd s)%Q.

(** state 2, the [try] block after [recvfrom] returned [ack] *)
Definition on_ack (w : world) (ack : bytes) (s : st) : result st :=
  let! hdr := unpack_II ack in
  let ackno := snd hdr in
  let tRecv := now w in
  match send_times s !! ackno with
  | None => Raise KeyError
  | Some t0 =>
      let sample_rtt := (tRecv - t0)%float in
      let est := estimated_rtt_calc sample_rtt (estimated_rtt s) in
      let dev := dev_rtt_calc sample_rtt est (dev_rtt s) in
      let tmo := (est + 4 * dev)%float in
      let log := Row 0 0%float ackno (tRecv - start s)%float :: traced s in
      let out :=
        if dict_mem ackno (outstanding s)
        then dict_del ackno (outstanding s) else outstanding s in
      if ackno =? desired_ackno s then
        let! c := grow s in
        Ok {| start := start s; timeout := tmo;
              estimated_rtt := est; dev_rtt := dev;
              send_times := send_times s;
              cwnd := c; ssthresh := ssthresh s;
              seqno := seqno s;
              desired_ackno := dict_first out (seqno s);
              body := body s; have_more_data := have_more_data s;
              outstanding := out;
              state := 0;
              sent := sent s; traced := log; asked := asked s |}
      else
        Ok {| start := start s; timeout := tmo;
              estimated_rtt := est; dev_rtt := dev;
              send_times := send_times s;
              cwnd := cwnd s; ssthresh := ssthresh s;
              seqno := seqno s; desired_ackno := desired_ackno s;
              body := body s; have_more_data := have_more_data s;
              outstanding := out;
              state := if window_full (cwnd s) out then 2 else 0;
              sent := sent s; traced := log; asked := asked s |}
  end.

(** state 2: wait for the desired ACK, once [s.settimeout(timeout)] has
    returned ([Further.iteration_io] has the case in which it raises).
    [recvfrom w = None] is [socket.timeout] or [socket.error];
    [recvfrom(100)] keeps at most the first 100 bytes of the datagram. *)
Definition state2 (w : world) (s : st) : result st :=
  match recvfrom w with
  | Some dgram => on_ack w (take 100 dgram) s
  | None => Ok (on_timeout s)
  end.

(** state 3: resend the packet with [desired_ackno] *)
Definition state3 (w : world) (s : st) : result st :=
  match dict_get (desired_ackno s) (outstanding s) with
  | None => Raise KeyError
  | Some pkt =>
      let tSend := now w in
      Ok {| start := start s; timeout := timeout s;
            estimated_rtt := estimated_rtt s; dev_rtt := dev_rtt s;
            send_times := <[desired_ackno s := tSend]> (send_times s);
            cwnd := cwnd s; ssthresh := ssthresh s;
            seqno := seqno s; desired_ackno := desired_ackno s;
            body := body s; have_more_data := have_more_data s;
            outstanding := outstanding s;
            state := 2;
            sent := pkt :: sent s;
            traced := Row (seqno s) (tSend - start s)%float 0 0%float :: traced s;
            asked := asked s |}
  end.

(** The body of the [while] loop; [None] is the [break] of the last
    [else]. *)
Definition iteration (w : world) (s : st) : option (result st) :=
  if state s =? 0 then Some (Ok (state0 s))
  else if state s =? 1 then Some (state1 w s)
  else if state s =? 2 then Some (state2 w s)
  else if state s =? 3 then Some (state3 w s)
  else None.

(** [have_more_data or len(outstanding) > 0] *)
Definition loop_cond (s : st) : bool :=
  have_more_data s || (0 <? Z.of_nat (length (outstanding s))).

Inductive outcome :=
| Finished (s : st)            (* the loop ended *)
| Crashed (e : exn) (s : st)   (* uncaught exception in the iteration entered in [s] *)
| Running (s : st).            (* the environment's script ran out *)

(** The [while] loop, driven by one [world] per iteration. *)
Fixpoint main_loop (ws : list world) (s : st) : outcome :=
  if loop_cond s then
    match ws with
    | [] => Running s
    | w :: ws' =>
        match iteration w s with
        | None => Finished s
        | Some (Ok s') => main_loop ws' s'
        | Some (Raise e) => Crashed e s
        end
    end
  else Finished s.

Definition main (n : Z) (t start : float) (ws : list world) : outcome :=
  main_loop ws (init n t start).

(** The state an outcome carries. *)
Definition final (o : outcome) : st :=
  match o with
  | Finished s => s
  | Crashed _ s => s
  | Running s => s
  end.

(** States the loop can be in at the top of an iteration. *)
Inductive reachable (n : Z) (t start : float) : st -> Prop :=
| reach_init : reachable n t start (init n t start)
| reach_step s w s' :
    reachable n t start s ->
    loop_cond s = true ->
    iteration w s = Some (Ok s') ->
    reachable n t start s'.

(** The invariant of the loop: what holds of the locals at the top of every
    iteration. *)
Record inv (s : st) : Prop := {
  inv_cwnd : (1 <= cwnd s)%Q;
  inv_sent : forall k, k ∈ keys (outstanding s) -> is_Some (send_times s !! k);
  inv_below : forall k, is_Some (send_times s !! k) -> k < seqno s;
  inv_desired : desired_ackno s = dict_first (outstanding s) (seqno s);
  inv_nodup : NoDup (keys (outstanding s));
  inv_waiting :
    loop_cond s = true -> state s = 2 \/ state s = 3 -> outstanding s <> []
}.

(** Every ledger entry is a packet whose header carries its key. *)
Definition framed (s : st) : Prop :=
  forall k pkt, (k, pkt) ∈ outstanding s ->
    exists hdr b, pack_II magic k = Ok hdr /\ pkt = hdr ++ b.

(** The sequence numbers the data source was asked for and answered with a
    payload, most recent first. *)
Definition asked_with_data (s : st) : list Z :=
  List.filter (fun k => match wait_for_data k with Some _ => true | None => false end)
    (asked s).

(** What is known of the queries made to the data source. *)
Definition asked_inv (s : st) : Prop :=
  NoDup (asked_with_data s) /\
  forall k, k ∈ asked_with_data s ->
    k < seqno s \/ (k = seqno s /\ state s = 1).

End Main.

End Tahoe.

(** ** [client_tahoe.py]: [cwnd] and [ssthresh] as Python computes them

    Lines 145-157 on Python numbers.  An [int] is exact and unbounded; a
    float is a binary64 and every operation on it rounds to nearest, ties
    to even.  [1 / cwnd] is a float whatever [cwnd] is, so the first step
    of congestion avoidance turns [cwnd] into a float. *)

Module Cwnd.

Inductive num :=
| PyInt (z : Z)
| PyFloat (f : float).

Record cc := Cc { cwnd : num; ssthresh : num }.

(** [cwnd = 1] and [ssthresh = n], with [n = int(sys.argv[3])] *)
Definition init (n : Z) : cc := {| cwnd := PyInt 1; ssthresh := PyInt n |}.

(** [float(z)]: the binary64 nearest to [z]; [OverflowError] when it would
    be larger than the largest float *)
Definition float_of_int (z : Z) : result float :=
  match SpecFloat.binary_normalize FloatOps.prec FloatOps.emax z 0 false with
  | SpecFloat.S754_infinity _ => Raise OverflowError
  | sf => Ok (SF2Prim sf)
  end.

(** [1 / z] for an [int]: the binary64 nearest to the quotient *)
Definition one_over_int (z : Z) : result float :=
  let quotient (sign : bool) (p : positive) :=
    SF2Prim
      (SpecFloat.SFdiv FloatOps.prec FloatOps.emax
         (SpecFloat.S754_finite false 1 0) (SpecFloat.S754_finite sign p 0)) in
  match z with
  | Z0 => Raise ZeroDivisionError
  | Zpos p => Ok (quotient false p)
  | Zneg p => Ok (quotient true p)
  end.

(** [1 / f] for a float: the [int] 1 becomes the float 1.0 *)
Definition one_over_float (f : float) : result float :=
  if PrimFloat.eqb f 0 then Raise ZeroDivisionError else Ok (1 / f)%float.

(** The order of an [int] and a float, which Python decides on their exact
    values; there is none when the float is a NaN. *)
Definition compare_int_float (z : Z) (f : float) : option comparison :=
  match Prim2SF f with
  | SpecFloat.S754_nan => None
  | SpecFloat.S754_infinity sign => Some (if sign then Gt else Lt)
  | SpecFloat.S754_zero _ => Some (z ?= 0)
  | SpecFloat.S754_finite sign m e =>
      let v := if sign then Zneg m else Zpos m in
      Some (if 0 <=? e then z ?= v * 2 ^ e else z * 2 ^ (- e) ?= v)
  end.

(** [a < b] *)
Definition lt (a b : num) : bool :=
  match a, b with
  | PyInt x, PyInt y => x <? y
  | PyFloat x, PyFloat y => PrimFloat.ltb x y
  | PyInt x, PyFloat y =>
      match compare_int_float x y with Some Lt => true | _ => false end
  | PyFloat x, PyInt y =>
      match compare_int_float y x with Some Gt => true | _ => false end
  end.

(** [a + 1] *)
Definition add_one (a : num) : num :=
  match a with
  | PyInt z => PyInt (z + 1)
  | PyFloat f => PyFloat (f + 1)%float
  end.

(** [a + 1 / a]: the quotient first, then the sum of two floats *)
Definition add_inverse (a : num) : result num :=
  match a with
  | PyInt z =>
      let! q := one_over_int z in
      let! fz := float_of_int z in
      Ok (PyFloat (fz + q)%float)
  | PyFloat f =>
      let! q := one_over_float f in
      Ok (PyFloat (f + q)%float)
  end.

(** lines 153-156: [if cwnd < ssthresh: cwnd += 1 else: cwnd += 1 / cwnd] *)
Definition grow (c : cc) : result cc :=
  if lt (cwnd c) (ssthresh c) then
    Ok {| cwnd := add_one (cwnd c); ssthresh := ssthresh c |}
  else
    let! x := add_inverse (cwnd c) in
    Ok {| cwnd := x; ssthresh := ssthresh c |}.

(** What the [try] block of state 2 does to [cwnd] and [ssthresh] once
    [recvfrom] has returned [ack]; the other variables are read from the
    state [s] of the loop. *)
Definition on_ack (ack : bytes) (s : Tahoe.st) (c : cc) : result cc :=
  let! hdr := unpack_II ack in
  let ackno := snd hdr in
  match Tahoe.send_times s !! ackno with
  | None => Raise KeyError
  | Some _ =>
      if ackno =? Tahoe.desired_ackno s then grow c else Ok c
  end.


End Cwnd.

(** ** [client_saw.py] *)

Module Saw.

(** The local variables of [main], followed by the effect logs.  [tSend] is
    unbound until state 1 has run; state 2 is only entered from state 1. *)
Record st := St {
  start : float;
  seqno : Z;
  body : option bytes;
  have_more_data : bool;
  state : Z;
  tSend : float;
  sent : list bytes;
  traced : list row;
  asked : list Z
}.

Definition magic : Z := 0xBAADCAFE.

Definition init (start : float) : st :=
  {| start := start; seqno := 0; body := None; have_more_data := true;
     state := 0; tSend := 0%float; sent := []; traced := []; asked := [] |}.

Section Main.
Variable wait_for_data : Z -> option bytes.

(** state 0: wait for data to be available to send *)
Definition state0 (s : st) : st :=
  let b := wait_for_data (seqno s) in
  {| start := start s; seqno := seqno s;
     body := b;
     have_more_data :=
       match b with None => false | Some _ => have_more_data s end;
     state := match b with None => state s | Some _ => 1 end;
     tSend := tSend s; sent := sent s; traced := traced s;
     asked := seqno s :: asked s |}.

(** state 1: send one data packet *)
Definition state1 (w : world) (s : st) : result st :=
  let! hdr := pack_II magic (seqno s) in
  match body s with
  | None => Raise TypeError
  | Some b =>
      Ok {| start := start s; seqno := seqno s; body := body s;
            have_more_data := have_more_data s;
            state := 2;
            tSend := now w;
            sent := (hdr ++ b) :: sent s;
            traced := traced s; asked := asked s |}
  end.

(** state 2 once [recvfrom] has returned [ack]: the number in the ACK is
    logged and otherwise ignored *)
Definition on_ack (w : world) (ack : bytes) (s : st) : result st :=
  let tRecv := now w in
  let! hdr := unpack_II ack in
  let ackno := snd hdr in
  Ok {| start := start s;
        seqno := seqno s + 1;
        body := body s; have_more_data := have_more_data s;
        state := 0;
        tSend := tSend s; sent := sent s;
        traced :=
          Row (seqno s) (tSend s - start s)%float ackno (tRecv - start s)%float
            :: traced s;
        asked := asked s |}.

(** What one pass through the loop body does. *)
Inductive pass :=
| Next (s : st)       (* the iteration completed *)
| Throw (e : exn)     (* uncaught exception *)
| Block               (* recvfrom never returns: there is no timeout *)
| Break.              (* the [break] of the last [else] *)

Definition iteration (w : world) (s : st) : pass :=
  if state s =? 0 then Next (state0 s)
  else if state s =? 1 then
    match state1 w s with Ok s' => Next s' | Raise e => Throw e end
  else if state s =? 2 then
    match recvfrom w with
    | None => Block
    | Some dgram =>
        match on_ack w (take 100 dgram) s with
        | Ok s' => Next s'
        | Raise e => Throw e
        end
    end
  else Break.

Inductive outcome :=
| Finished (s : st)
| Crashed (e : exn) (s : st)
| Blocked (s : st)
| Running (s : st).

(** [while have_more_data: ...] *)
Fixpoint main_loop (ws : list world) (s : st) : outcome :=
  if have_more_data s then
    match ws with
    | [] => Running s
    | w :: ws' =>
        match iteration w s with
        | Next s' => main_loop ws' s'
        | Throw e => Crashed e s
        | Block => Blocked s
        | Break => Finished s
        end
    end
  else Finished s.

Definition main (start : float) (ws : list world) : outcome :=
  main_loop ws (init start).

End Main.

End Saw.

(** ** [client_burst1.py] *)

Module Burst.

Record st := St {
  start : float;
  seqno : Z;
  body : option bytes;
  have_more_data : bool;
  state : Z;
  sent : list bytes;
  traced : list row;
  asked : list Z;
  slept : list float            (* time.sleep, most recent first *)
}.

Definition magic : Z := 0xBAADCAFE.

Definition init (start : float) : st :=
  {| start := start; seqno := 0; body := None; have_more_data := true;
     state := 0; sent := []; traced := []; asked := []; slept := [] |}.

Section Main.
Variable wait_for_data : Z -> option bytes.
(** burst size and gap between bursts *)
Variable n : Z.
Variable t : float.
(** [time.sleep]: the exception it raises for a duration, if any (CPython
    raises [ValueError] for a negative duration or a NaN, [OverflowError]
    for one too large for its clock) *)
Variable sleep : float -> option exn.

(** state 0: wait for data; [seqno % n] raises [ZeroDivisionError] when
    [n] is zero *)
Definition state0 (s : st) : result st :=
  let b := wait_for_data (seqno s) in
  let asked' := seqno s :: asked s in
  match b with
  | None =>
      Ok {| start := start s; seqno := seqno s; body := b;
            have_more_data := false; state := state s;
            sent := sent s; traced := traced s; asked := asked';
            slept := slept s |}
  | Some _ =>
      if n =? 0 then Raise ZeroDivisionError
      else
        Ok {| start := start s; seqno := seqno s; body := b;
              have_more_data := have_more_data s;
              state := if seqno s mod n =? 0 then 1 else 2;
              sent := sent s; traced := traced s; asked := asked';
              slept := slept s |}
  end.

(** state 1: wait [t] seconds for the gap between bursts; an exception of
    [time.sleep(t)] is not caught *)
Definition state1 (s : st) : result st :=
  match sleep t with
  | Some e => Raise e
  | None =>
      Ok {| start := start s; seqno := seqno s; body := body s;
            have_more_data := have_more_data s; state := 2;
            sent := sent s; traced := traced s; asked := asked s;
            slept := t :: slept s |}
  end.

(** state 2: send one data packet *)
Definition state2 (w : world) (s : st) : result st :=
  let! hdr := pack_II magic (seqno s) in
  match body s with
  | None => Raise TypeError
  | Some b =>
      let tSend := now w in
      Ok {| start := start s; seqno := seqno s + 1; body := body s;
            have_more_data := have_more_data s;
            state := 0;
            sent := (hdr ++ b) :: sent s;
            traced := Row (seqno s) (tSend - start s)%float 0 0%float :: traced s;
            asked := asked s; slept := slept s |}
  end.

Definition iteration (w : world) (s : st) : option (result st) :=
  if state s =? 0 then Some (state0 s)
  else if state s =? 1 then Some (state1 s)
  else if state s =? 2 then Some (state2 w s)
  else None.

Inductive outcome :=
| Finished (s : st)
| Crashed (e : exn) (s : st)
| Running (s : st).

(** [while have_more_data: ...] *)
Fixpoint main_loop (ws : list world) (s : st) : outcome :=
  if have_more_data s then
    match ws with
    | [] => Running s
    | w :: ws' =>
        match iteration w s with
        | None => Finished s
        | Some (Ok s') => main_loop ws' s'
        | Some (Raise e) => Crashed e s
        end
    end
  else Finished s.

Definition main (start : float) (ws : list world) : outcome :=
  main_loop ws (init start).

End Main.

End Burst.

(** ** The windowed state machine of the specification, window fixed

    This machine is written from the words of the specification (its data
    model and its sections on the Framing Codec, the Ledger and the
    Transmission State Machine), not from a source file: it is the machine
    the stop-and-wait and burst clients are compared with.  The congestion
    window is the constant [window]; the timing state only decides when a
    wait expires, which the environment does here. *)

Module Windowed.

Inductive phase :=
| FillWindow
| Send (payload : bytes)
| AwaitAck
| Retransmit.

Record segment := Segment {
  seg_seqno : Z;
  seg_payload : bytes;
  seg_sendTime : float
}.

Record st := St {
  at_phase : phase;
  nextSeqno : Z;
  desiredAckno : Z;
  dataExhausted : bool;
  ledger : dict segment;
  sends : list bytes;         (* datagrams transmitted, most recent first *)
  matches : nat;              (* ACKs that equalled desiredAckno *)
  retransmissions : nat       (* entries into Retransmit *)
}.

(** encodeDataPacket: big-endian marker, big-endian seqno, then payload *)
Definition encodeDataPacket (marker seqno : Z) (payload : bytes) : bytes :=
  be32 marker ++ be32 seqno ++ payload.

(** decodeAck: [None] is MalformedPacket, fewer than 8 bytes; bytes after
    the first 8 are ignored *)
Definition decodeAck (buf : bytes) : option (Z * Z) :=
  match buf with
  | a3 :: a2 :: a1 :: a0 :: b3 :: b2 :: b1 :: b0 :: _ =>
      Some (of_be32 a3 a2 a1 a0, of_be32 b3 b2 b1 b0)
  | _ => None
  end.

Definition init : st :=
  {| at_phase := FillWindow; nextSeqno := 0; desiredAckno := 0;
     dataExhausted := false; ledger := []; sends := [];
     matches := 0%nat; retransmissions := 0%nat |}.

Section Machine.
Variable next : Z -> option bytes.   (* the Data Source *)
Variable marker : Z.
Variable window : nat.

(** admitMore: outstandingCount < window *)
Definition admitMore (outstandingCount : nat) : bool :=
  (outstandingCount <? window)%nat.

(** remove: a non-member key is a no-op *)
Definition remove (k : Z) (l : dict segment) : dict segment :=
  if dict_mem k l then dict_del k l else l.

Definition fill_window (m : st) : st :=
  match next (nextSeqno m) with
  | None =>
      {| at_phase := AwaitAck; nextSeqno := nextSeqno m;
         desiredAckno := desiredAckno m; dataExhausted := true;
         ledger := ledger m; sends := sends m; matches := matches m;
         retransmissions := retransmissions m |}
  | Some p =>
      {| at_phase := Send p; nextSeqno := nextSeqno m;
         desiredAckno := desiredAckno m; dataExhausted := dataExhausted m;
         ledger := ledger m; sends := sends m; matches := matches m;
         retransmissions := retransmissions m |}
  end.

Definition send (w : world) (p : bytes) (m : st) : st :=
  let l := dict_set (nextSeqno m) (Segment (nextSeqno m) p (now w)) (ledger m) in
  {| at_phase := if admitMore (length l) then FillWindow else AwaitAck;
     nextSeqno := nextSeqno m + 1;
     desiredAckno := desiredAckno m; dataExhausted := dataExhausted m;
     ledger := l;
     sends := encodeDataPacket marker (nextSeqno m) p :: sends m;
     matches := matches m; retransmissions := retransmissions m |}.

Definition await_ack (w : world) (m : st) : st :=
  match recvfrom w with
  | None =>
      (* timeout expiry *)
      {| at_phase := Retransmit; nextSeqno := nextSeqno m;
         desiredAckno := desiredAckno m; dataExhausted := dataExhausted m;
         ledger := ledger m; sends := sends m; matches := matches m;
         retransmissions := retransmissions m |}
  | Some dgram =>
      match decodeAck dgram with
      | None => m                       (* MalformedPacket: dropped *)
      | Some (_, ackno) =>
          let l := remove ackno (ledger m) in
          if ackno =? desiredAckno m then
            {| at_phase :=
                 if admitMore (length l) && negb (dataExhausted m)
                 then FillWindow else AwaitAck;
               nextSeqno := nextSeqno m;
               desiredAckno := dict_first l (nextSeqno m);
               dataExhausted := dataExhausted m;
               ledger := l; sends := sends m;
               matches := S (matches m);
               retransmissions := retransmissions m |}
          else
            {| at_phase := if admitMore (length l) then FillWindow else AwaitAck;
               nextSeqno := nextSeqno m;
               desiredAckno := desiredAckno m;
               dataExhausted := dataExhausted m;
               ledger := l; sends := sends m; matches := matches m;
               retransmissions := retransmissions m |}
      end
  end.

Definition retransmit (w : world) (m : st) : st :=
  match dict_get (desiredAckno m) (ledger m) with
  | None =>
      {| at_phase := AwaitAck; nextSeqno := nextSeqno m;
         desiredAckno := desiredAckno m; dataExhausted := dataExhausted m;
         ledger := ledger m; sends := sends m; matches := matches m;
         retransmissions := S (retransmissions m) |}
  | Some sg =>
      {| at_phase := AwaitAck; nextSeqno := nextSeqno m;
         desiredAckno := desiredAckno m; dataExhausted := dataExhausted m;
         ledger :=
           dict_set (desiredAckno m)
             (Segment (seg_seqno sg) (seg_payload sg) (now w)) (ledger m);
         sends := encodeDataPacket marker (seg_seqno sg) (seg_payload sg) :: sends m;
         matches := matches m;
         retransmissions := S (retransmissions m) |}
  end.

Definition step (w : world) (m : st) : st :=
  match at_phase m with
  | FillWindow => fill_window m
  | Send p => send w p m
  | AwaitAck => await_ack w m
  | Retransmit => retransmit w m
  end.

(** Terminal condition: data source exhausted and ledger empty. *)
Definition terminal (m : st) : bool :=
  dataExhausted m && (length (ledger m) =? 0)%nat.

Inductive outcome :=
| Finished (m : st)
| Running (m : st).

Fixpoint run (ws : list world) (m : st) : outcome :=
  if terminal m then Finished m
  else
    match ws with
    | [] => Running m
    | w :: ws' => run ws' (step w m)
    end.

Definition final (o : outcome) : st :=
  match o with
  | Finished m => m
  | Running m => m
  end.

(** The data packets for [count] consecutive sequence numbers from [k], in
    the order they are originated. *)
Fixpoint frames (k : Z) (count : nat) : list bytes :=
  match count with
  | O => []
  | S c =>
      match next k with
      | Some p => encodeDataPacket marker k p :: frames (k + 1) c
      | None => []
      end
  end.

End Machine.

End Windowed.

(** ** Comparing the simple clients with the windowed machine *)

Module Refinement.

Section Clean.
Variable wait_for_data : Z -> option bytes.

(** The environment answers a wait of the stop-and-wait client with the ACK
    for the packet it has just sent. *)
Definition matched (s : Saw.st) (w : world) : Prop :=
  Saw.state s = 2 ->
  exists dgram m,
    recvfrom w = Some dgram /\
    unpack_II (take 100 dgram) = Ok (m, Saw.seqno s).

(** A script in which every wait of the stop-and-wait client, run from [s],
    is answered that way. *)
Fixpoint clean (ws : list world) (s : Saw.st) : Prop :=
  match ws with
  | [] => True
  | w :: ws' =>
      matched s w /\
      match Saw.iteration wait_for_data w s with
      | Saw.Next s' => clean ws' s'
      | _ => True
      end
  end.

(** The data source has exactly [count] chunks. *)
Definition has_chunks (count : nat) : Prop :=
  (forall k, 0 <= k < Z.of_nat count -> wait_for_data k <> None) /\
  wait_for_data (Z.of_nat count) = None.

End Clean.

(** How a state of the stop-and-wait client and a state of the windowed
    machine with window 1 correspond on a clean run. *)
Definition sim (s : Saw.st) (m : Windowed.st) : Prop :=
  Saw.sent s = Windowed.sends m /\
  Windowed.retransmissions m = 0%nat /\
  Windowed.matches m = Z.to_nat (Saw.seqno s) /\
  0 <= Saw.seqno s /\
  ((Saw.state s = 0 /\ Saw.have_more_data s = true /\
    Windowed.at_phase m = Windowed.FillWindow /\
    Windowed.dataExhausted m = false /\ Windowed.ledger m = [] /\
    Windowed.nextSeqno m = Saw.seqno s /\
    Windowed.desiredAckno m = Saw.seqno s)
   \/
   (Saw.state s = 0 /\ Saw.have_more_data s = false /\
    Windowed.dataExhausted m = true /\ Windowed.ledger m = [])
   \/
   (Saw.state s = 1 /\ Saw.have_more_data s = true /\
    (exists p, Saw.body s = Some p /\
               Windowed.at_phase m = Windowed.Send p) /\
    Windowed.dataExhausted m = false /\ Windowed.ledger m = [] /\
    Windowed.nextSeqno m = Saw.seqno s /\
    Windowed.desiredAckno m = Saw.seqno s)
   \/
   (Saw.state s = 2 /\ Saw.have_more_data s = true /\
    Windowed.at_phase m = Windowed.AwaitAck /\
    Windowed.dataExhausted m = false /\
    (exists sg, Windowed.ledger m = [(Saw.seqno s, sg)]) /\
    Windowed.nextSeqno m = Saw.seqno s + 1 /\
    Windowed.desiredAckno m = Saw.seqno s)).

End Refinement.

(** ** Concrete runs used as test inputs *)

Module Scenario.

(** A data source with [count] one-byte chunks, then end of data. *)
Definition chunks (count : Z) (k : Z) : option bytes :=
  if (0 <=? k) && (k <? count) then Some [Byte.x61] else None.

(** An ACK datagram for [k] as the server builds it. *)
Definition ackp (k : Z) : bytes := be32 0xBAADCAFE ++ be32 k.

Definition tick (t : float) : world := World t None.
Definition ack (t : float) (k : Z) : world := World t (Some (ackp k)).

(** [client_tahoe.py] with [n = 8], [t = 0.5], started at time 100, four
    chunks: send 0, ACK 0, send 1 and 2.  Left waiting in state 2 with 1 and
    2 outstanding. *)
Definition script_two_in_flight : list world :=
  [tick 100; tick 101; ack 101.5 0; tick 102; tick 102; tick 103; tick 103].

Definition two_in_flight : Tahoe.st :=
  Tahoe.final (Tahoe.main (chunks 4) 8 0.5 100 script_two_in_flight).

(** The same client after its first send: waiting in state 2 for ACK 0. *)
Definition script_first_send : list world := [tick 100; tick 101].

Definition first_send : Tahoe.st :=
  Tahoe.final (Tahoe.main (chunks 4) 8 0.5 100 script_first_send).

(** [client_tahoe.py] with [n = 2]: send 0, ACK 0 (cwnd 2), send 1 and 2,
    ACK 1 (cwnd 5/2), data for 3 fetched.  Left in state 1, about to send 3,
    with 2 outstanding. *)
Definition script_fractional : list world :=
  [tick 100; tick 101; ack 101.5 0; tick 102; tick 102; tick 103; tick 103;
   ack 103.5 1; tick 104].

Definition fractional : Tahoe.st :=
  Tahoe.final (Tahoe.main (chunks 4) 2 0.5 100 script_fractional).





(** [two_in_flight] after the ACK for 1, the desired one, was processed. *)
Definition after_ack_one : Tahoe.st :=
  match Tahoe.on_ack (World 103.5 None) (ackp 1) two_in_flight with
  | Ok s => s
  | Raise _ => two_in_flight
  end.

(** [first_send] after the wait for ACK 0 timed out: in state 3, about to
    resend packet 0. *)
Definition timed_out : Tahoe.st :=
  Tahoe.final
    (Tahoe.main (chunks 4) 8 0.5 100 (script_first_send ++ [tick 102])).

(** A whole session with four chunks and no loss; every ACK is the desired
    one. *)
Definition script_session : list world :=
  [tick 100; tick 101; ack 101.5 0; tick 102; tick 102; tick 103; tick 103;
   ack 103.5 1; tick 104; tick 104; tick 105; ack 105.5 2; tick 106;
   ack 106.5 3].

Definition session : Tahoe.outcome :=
  Tahoe.main (chunks 4) 8 0.5 100 script_session.

(** The clean run of the specification: three chunks, every ACK matches. *)
Definition script_clean : list world :=
  [tick 100; tick 101; ack 101.5 0; tick 102; tick 102; ack 102.5 1;
   tick 103; tick 103; ack 103.5 2; tick 104].

(** The stop-and-wait client is sent an ACK for 7 after packet 0, then no
    datagram arrives any more. *)
Definition script_wrong_ack : list world :=
  [tick 100; tick 101; ack 101.5 7; tick 102; tick 102].

(** No datagram ever arrives. *)
Definition script_silence : list world :=
  [tick 100; tick 101; tick 102; tick 103; tick 104].

(** Eleven iterations in which no datagram arrives. *)
Definition script_ticks : list world :=
  [tick 100; tick 101; tick 102; tick 103; tick 104; tick 105; tick 106;
   tick 107; tick 108; tick 109; tick 110].

(** A datagram too short to be an ACK, and an ACK for 0 with one byte more. *)
Definition short_ack : bytes := [Byte.x00].
Definition long_ack : bytes := ackp 0 ++ [Byte.x00].

(** [time.sleep] and [s.settimeout] for the durations of these runs:
    [ValueError] for a NaN or a negative one, and a return for the others
    (none of them is too large for the clock). *)
Definition sleep (t : float) : option exn :=
  if negb (PrimFloat.eqb t t) || PrimFloat.ltb t 0 then Some ValueError
  else None.




End Scenario.

(** ** Invariants of the three loops, and the command lines *)

Module Further.

(** A list of sequence numbers in strictly increasing order. *)
Fixpoint ascending (l : list Z) : Prop :=
  match l with
  | [] => True
  | k :: l' => (forall x, x ∈ l' -> k < x) /\ ascending l'
  end.

Section Loops.
Variable wait_for_data : Z -> option bytes.

(** [pkt] is the data packet for sequence number [k]: the header
    [struct.pack(">II", magic, k)] followed by the payload the data source
    has for [k]. *)
Definition is_frame (magic k : Z) (pkt : bytes) : Prop :=
  exists hdr b,
    wait_for_data k = Some b /\ pack_II magic k = Ok hdr /\ pkt = hdr ++ b.

(** What holds of the locals of [client_tahoe.py] at the top of every
    iteration, beside [Tahoe.inv]. *)
Record tahoe_inv (s : Tahoe.st) : Prop := {
  ti_state :
    Tahoe.state s = 0 \/ Tahoe.state s = 1 \/
    Tahoe.state s = 2 \/ Tahoe.state s = 3;
  ti_body :
    Tahoe.state s = 1 ->
    Tahoe.body s = wait_for_data (Tahoe.seqno s) /\ Tahoe.body s <> None;
  ti_seqno : 0 <= Tahoe.seqno s;
  ti_sorted : ascending (keys (Tahoe.outstanding s));
  ti_times :
    forall k, is_Some (Tahoe.send_times s !! k) <-> 0 <= k < Tahoe.seqno s;
  ti_sent :
    forall pkt, pkt ∈ Tahoe.sent s ->
      exists k, 0 <= k < Tahoe.seqno s /\ is_frame Tahoe.magic k pkt;
  ti_ledger :
    forall k pkt, (k, pkt) ∈ Tahoe.outstanding s -> is_frame Tahoe.magic k pkt;
  ti_done :
    Tahoe.have_more_data s = false -> wait_for_data (Tahoe.seqno s) = None
}.

(** The number of packets [client_saw.py] has handed to [sendto]: one for
    each acknowledged sequence number, and one more while it waits. *)
Definition saw_sent_count (s : Saw.st) : nat :=
  (Z.to_nat (Saw.seqno s) + (if (Saw.state s =? 2)%Z then 1 else 0))%nat.

Record saw_inv (s : Saw.st) : Prop := {
  si_state : Saw.state s = 0 \/ Saw.state s = 1 \/ Saw.state s = 2;
  si_body :
    Saw.state s = 1 ->
    Saw.body s = wait_for_data (Saw.seqno s) /\ Saw.body s <> None;
  si_seqno : 0 <= Saw.seqno s;
  si_traced : map r_seqno (rev (Saw.traced s)) = seqZ 0 (Saw.seqno s);
  si_sent :
    Saw.sent s
    = rev (Windowed.frames wait_for_data Saw.magic 0 (saw_sent_count s));
  si_count : length (Saw.sent s) = saw_sent_count s;
  si_done :
    Saw.have_more_data s = false ->
    Saw.state s = 0 /\ wait_for_data (Saw.seqno s) = None
}.

Definition saw_final (o : Saw.outcome) : Saw.st :=
  match o with
  | Saw.Finished s => s
  | Saw.Crashed _ s => s
  | Saw.Blocked s => s
  | Saw.Running s => s
  end.

Variable n : Z.

(** The sequence numbers below [c] at which [client_burst1.py] starts a
    burst: the multiples of [n]. *)
Definition burst_starts (c : Z) : list Z :=
  List.filter (fun k => k mod n =? 0) (seqZ 0 c).

Record burst_inv (t : float) (s : Burst.st) : Prop := {
  bi_state : Burst.state s = 0 \/ Burst.state s = 1 \/ Burst.state s = 2;
  bi_body :
    Burst.state s <> 0 ->
    Burst.body s = wait_for_data (Burst.seqno s) /\ Burst.body s <> None;
  bi_burst : Burst.state s = 1 -> Burst.seqno s mod n = 0;
  bi_seqno : 0 <= Burst.seqno s;
  bi_traced : map r_seqno (rev (Burst.traced s)) = seqZ 0 (Burst.seqno s);
  bi_sent :
    Burst.sent s
    = rev (Windowed.frames wait_for_data Burst.magic 0
             (Z.to_nat (Burst.seqno s)));
  bi_count : length (Burst.sent s) = Z.to_nat (Burst.seqno s);
  bi_slept :
    Burst.slept s
    = replicate
        (length
           (burst_starts
              (Burst.seqno s + (if Burst.state s =? 2 then 1 else 0))))
        t;
  bi_done :
    Burst.have_more_data s = false ->
    Burst.state s = 0 /\ wait_for_data (Burst.seqno s) = None
}.

Definition burst_final (o : Burst.outcome) : Burst.st :=
  match o with
  | Burst.Finished s => s
  | Burst.Crashed _ s => s
  | Burst.Running s => s
  end.

End Loops.

(** [client_tahoe.py]: one iteration with the exceptions of the socket
    calls, which [Tahoe.iteration] takes to return.
    [s.settimeout(timeout)] is the first statement of state 2 and stands
    before the [try]; [s.sendto] is called in states 1 and 3, once the
    packet has been built or looked up, outside any [try].  [settimeout]
    is the exception [s.settimeout] raises for a value (CPython:
    [ValueError] for a negative one or a NaN, [OverflowError] for one too
    large for its clock) and [sendto] the one [s.sendto] raises during an
    iteration; [None] when the call returns. *)
Section Sockets.
Variable wait_for_data : Z -> option bytes.
Variable settimeout : float -> option exn.
Variable sendto : world -> option exn.


End Sockets.

End Further.

(** ** The command lines: the [if __name__ == "__main__"] blocks *)

Module Cli.

Section Args.
(** A command-line argument, and the parsers [int(...)] and [float(...)]
    with [None] for [ValueError]. *)
Variable arg : Type.
Variable int_of : arg -> option Z.
Variable float_of : arg -> option float.

Inductive result :=
| Usage                                  (* usage printed, sys.exit(0) *)
| ValueError                             (* int() or float() rejected an argument *)
| IndexError                             (* sys.argv[i] with i out of range *)
| Run (host : arg) (port : Z) (rest : option (Z * float)).
                                         (* main(host, port[, n, t]) is called *)

(** [sys.argv[i]], then what follows *)
Definition argv_at (argv : list arg) (i : nat) (k : arg -> result) : result :=
  match argv !! i with
  | Some a => k a
  | None => IndexError
  end.

Definition parsed {A} (o : option A) (k : A -> result) : result :=
  match o with
  | Some x => k x
  | None => ValueError
  end.

(** [host, port, n, t] read from [sys.argv[1..4]] *)
Definition read_four (argv : list arg) : result :=
  argv_at argv 1%nat (fun host =>
  argv_at argv 2%nat (fun a2 => parsed (int_of a2) (fun port =>
  argv_at argv 3%nat (fun a3 => parsed (int_of a3) (fun n =>
  argv_at argv 4%nat (fun a4 => parsed (float_of a4) (fun t =>
  Run host port (Some (n, t))))))))).

(** [client_tahoe.py]: the guard is [len(sys.argv) <= 3] *)
Definition tahoe (argv : list arg) : result :=
  if (length argv <=? 3)%nat then Usage else read_four argv.

(** [client_burst1.py]: the guard is [len(sys.argv) <= 4] *)
Definition burst1 (argv : list arg) : result :=
  if (length argv <=? 4)%nat then Usage else read_four argv.

(** [client_saw.py]: the guard is [len(sys.argv) <= 2] *)
Definition saw (argv : list arg) : result :=
  if (length argv <=? 2)%nat then Usage
  else
    argv_at argv 1%nat (fun host =>
    argv_at argv 2%nat (fun a2 => parsed (int_of a2) (fun port =>
    Run host port None))).

End Args.

End Cli.

(** * Properties *)

(** ** The ordered dictionary *)

Section DictFacts.
Context {V : Type}.
Implicit Types (d : dict V) (k : Z) (v : V).

Lemma dict_get_Some_keys k d v : dict_get k d = Some v -> k ∈ keys d.
Proof.
  induction d as [|[k' v'] d IH]; simpl; [discriminate|].
  destruct (Z.eqb_spec k' k) as [->|Hne]; intros H.
  - apply elem_of_cons; by left.
  - apply elem_of_cons; right; auto.
Qed.

Lemma dict_get_None_keys k d : dict_get k d = None <-> k ∉ keys d.
Proof.
  induction d as [|[k' v'] d IH]; simpl.
  - split; [intros _; apply not_elem_of_nil | done].
  - rewrite not_elem_of_cons.
    destruct (Z.eqb_spec k' k) as [->|Hne]; split; try done.
    + intros [? _]; done.
    + intros H; split; [congruence | by apply IH].
    + intros [_ H]; by apply IH.
Qed.

Lemma dict_mem_true k d : dict_mem k d = true <-> k ∈ keys d.
Proof.
  unfold dict_mem. destruct (dict_get k d) eqn:E.
  - split; [intros _; eapply dict_get_Some_keys; eauto | done].
  - split; [done | intros H; apply dict_get_None_keys in E; done].
Qed.

Lemma dict_mem_false k d : dict_mem k d = false <-> k ∉ keys d.
Proof.
  rewrite <- dict_mem_true. destruct (dict_mem k d); split; congruence.
Qed.

Lemma keys_dict_set_new k v d :
  k ∉ keys d -> keys (dict_set k v d) = keys d ++ [k].
Proof.
  induction d as [|[k' v'] d IH]; simpl; [done|].
  rewrite not_elem_of_cons. intros [Hne Hd].
  destruct (Z.eqb_spec k' k); [congruence|]. simpl. by rewrite IH.
Qed.

Lemma length_dict_set_new k v d :
  k ∉ keys d -> length (dict_set k v d) = S (length d).
Proof.
  induction d as [|[k' v'] d IH]; simpl; [done|].
  rewrite not_elem_of_cons. intros [Hne Hd].
  destruct (Z.eqb_spec k' k); [congruence|]. simpl. by rewrite IH.
Qed.

Lemma dict_set_nonempty k v d : dict_set k v d <> [].
Proof. destruct d as [|[k' v'] d]; simpl; [done|]. by destruct (k' =? k). Qed.

Lemma keys_dict_del_subset k x d : x ∈ keys (dict_del k d) -> x ∈ keys d.
Proof.
  induction d as [|[k' v'] d IH]; simpl; [done|].
  destruct (Z.eqb_spec k' k) as [->|Hne]; simpl.
  - intros H. apply elem_of_cons; by right.
  - rewrite !elem_of_cons. intros [->|H]; [by left | right; auto].
Qed.

Lemma NoDup_keys_dict_del k d :
  NoDup (keys d) -> NoDup (keys (dict_del k d)).
Proof.
  induction d as [|[k' v'] d IH]; simpl; [done|].
  rewrite NoDup_cons. intros [Hk Hd].
  destruct (Z.eqb_spec k' k) as [->|Hne]; simpl; [done|].
  apply NoDup_cons. split; [|auto].
  intros H. apply Hk. eapply keys_dict_del_subset; eauto.
Qed.

Lemma not_in_keys_dict_del k d :
  NoDup (keys d) -> k ∉ keys (dict_del k d).
Proof.
  induction d as [|[k' v'] d IH]; simpl; [intros _; apply not_elem_of_nil|].
  rewrite NoDup_cons. intros [Hk Hd].
  destruct (Z.eqb_spec k' k) as [->|Hne]; simpl; [done|].
  rewrite not_elem_of_cons. split; [congruence | auto].
Qed.

Lemma dict_first_set k v d :
  dict_first (dict_set k v d) (k + 1) = dict_first d k.
Proof.
  destruct d as [|[k' v'] d]; simpl; [done|].
  by destruct (Z.eqb_spec k' k) as [->|Hne].
Qed.

Lemma dict_first_del_ne a x d :
  d <> [] -> a <> dict_first d x ->
  dict_first (dict_del a d) x = dict_first d x.
Proof.
  destruct d as [|[k' v'] d]; simpl; [done|]. intros _ Hne.
  by destruct (Z.eqb_spec k' a) as [->|Hne'].
Qed.

Lemma dict_first_in x d : d <> [] -> dict_first d x ∈ keys d.
Proof.
  destruct d as [|[k' v'] d]; simpl; [done|]. intros _.
  apply elem_of_cons; by left.
Qed.

Lemma dict_get_in_keys k d : k ∈ keys d -> is_Some (dict_get k d).
Proof.
  intros H. destruct (dict_get k d) eqn:E; [eauto|].
  apply dict_get_None_keys in E. done.
Qed.

Lemma dict_get_Some_elem k d v : dict_get k d = Some v -> (k, v) ∈ d.
Proof.
  induction d as [|[k' v'] d IH]; simpl; [discriminate|].
  destruct (Z.eqb_spec k' k) as [->|Hne].
  - intros [= ->]. apply elem_of_cons; by left.
  - intros H. apply elem_of_cons; right; auto.
Qed.

Lemma elem_dict_set k v d (x : Z * V) :
  x ∈ dict_set k v d -> x = (k, v) \/ x ∈ d.
Proof.
  induction d as [|[k' v'] d IH]; simpl.
  - intros ->%list_elem_of_singleton. by left.
  - destruct (Z.eqb_spec k' k) as [->|Hne]; rewrite !elem_of_cons.
    + intros [->|H]; auto.
    + intros [->|H]; auto. destruct (IH H); auto.
Qed.

Lemma elem_dict_del k d (x : Z * V) : x ∈ dict_del k d -> x ∈ d.
Proof.
  induction d as [|[k' v'] d IH]; simpl; [done|].
  destruct (Z.eqb_spec k' k) as [->|Hne]; rewrite !elem_of_cons; [auto|].
  intros [->|H]; auto.
Qed.

Lemma length_dict_set_le k v d : (length (dict_set k v d) <= S (length d))%nat.
Proof.
  induction d as [|[k' v'] d IH]; simpl; [lia|].
  destruct (k' =? k); simpl; lia.
Qed.

End DictFacts.

(** ** [client_tahoe.py]: the loop invariant *)

Section TahoeInvariant.
Import Tahoe.
Variable wait_for_data : Z -> option bytes.

Local Abbreviation state0 := (state0 wait_for_data).
Local Abbreviation iteration := (iteration wait_for_data).
Local Abbreviation reachable := (reachable wait_for_data).

Lemma window_full_nonempty c (d : dict bytes) :
  (1 <= c)%Q -> window_full c d = true -> d <> [].
Proof.
  unfold window_full, len. intros Hc Hf ->.
  apply Qle_bool_imp_le in Hf. change (c <= 0)%Q in Hf. lra.
Qed.

Lemma Qdiv_one_nonneg (c : Q) : (1 <= c)%Q -> (0 <= 1 / c)%Q.
Proof.
  intros Hc. apply Qle_shift_div_l; lra.
Qed.

Lemma grow_ok s : (1 <= cwnd s)%Q -> exists c, grow s = Ok c /\ (1 <= c)%Q.
Proof.
  intros Hc. unfold grow. destruct (slow_start s).
  - eexists; split; [reflexivity | lra].
  - destruct (Qeq_bool (cwnd s) 0) eqn:E.
    + apply Qeq_bool_eq in E. lra.
    + eexists; split; [reflexivity|].
      pose proof (Qdiv_one_nonneg _ Hc). lra.
Qed.

Lemma inv_init n t start : inv (init n t start).
Proof.
  split; simpl; try done.
  - intros k Hk. by apply not_elem_of_nil in Hk.
  - intros k [x Hx]. by rewrite lookup_empty in Hx.
  - apply NoDup_nil_2.
  - intros _ [?|?]; discriminate.
Qed.

Lemma inv_state0 s :
  inv s -> state s = 0 -> inv (state0 s).
Proof.
  intros [] Hst. split; simpl; try done.
  unfold loop_cond; simpl.
  destruct (wait_for_data (seqno s)); simpl.
  - intros _ [?|?]; discriminate.
  - intros Hl _ E. rewrite E in Hl. discriminate.
Qed.

Lemma inv_fresh_seqno s : inv s -> seqno s ∉ keys (outstanding s).
Proof.
  intros [] Hin. apply inv_sent0, inv_below0 in Hin. lia.
Qed.

Lemma inv_state1 w s s' :
  inv s -> state1 w s = Ok s' -> inv s'.
Proof.
  intros Hinv. pose proof (inv_fresh_seqno s Hinv) as Hfresh.
  destruct Hinv. unfold state1, bind.
  destruct (pack_II magic (seqno s)); [|discriminate].
  destruct (body s); [|discriminate].
  intros [= <-]. split; simpl.
  - done.
  - intros k. rewrite keys_dict_set_new by done.
    rewrite elem_of_app, list_elem_of_singleton. intros [Hk| ->].
    + destruct (decide (seqno s = k)) as [->|Hne].
      * rewrite lookup_insert_eq. eauto.
      * rewrite lookup_insert_ne by done. auto.
    + rewrite lookup_insert_eq. eauto.
  - intros k. destruct (decide (seqno s = k)) as [<-|Hne]; [lia|].
    rewrite lookup_insert_ne by done. intros Hk%inv_below0. lia.
  - rewrite dict_first_set. done.
  - rewrite keys_dict_set_new by done.
    apply NoDup_app. split; [done|]. split.
    + intros x Hx ->%list_elem_of_singleton. done.
    + apply NoDup_singleton.
  - intros _ _. apply dict_set_nonempty.
Qed.

Lemma inv_on_timeout s :
  inv s -> loop_cond s = true -> state s = 2 -> inv (on_timeout s).
Proof.
  intros [] Hl Hst. split; simpl; try done.
  intros _ _. apply inv_waiting0; auto.
Qed.

Lemma inv_state3 w s s' :
  inv s -> loop_cond s = true -> state s = 3 -> state3 w s = Ok s' -> inv s'.
Proof.
  intros [] Hl Hst. unfold state3.
  destruct (dict_get (desired_ackno s) (outstanding s)) as [pkt|] eqn:E;
    [|discriminate].
  apply dict_get_Some_keys in E.
  intros [= <-]. split; simpl; try done.
  - intros k Hk. destruct (decide (desired_ackno s = k)) as [->|Hne].
    + rewrite lookup_insert_eq. eauto.
    + rewrite lookup_insert_ne by done. auto.
  - intros k. destruct (decide (desired_ackno s = k)) as [<-|Hne].
    + intros _. auto.
    + rewrite lookup_insert_ne by done. auto.
  - intros _ _. apply inv_waiting0; auto.
Qed.

(** What the processing of an ACK did when it ran to its end: the two
    branches of [if ackno == desired_ackno]. *)
Lemma on_ack_cases w ack s s' :
  on_ack w ack s = Ok s' ->
  exists m ackno t0,
    unpack_II ack = Ok (m, ackno) /\
    send_times s !! ackno = Some t0 /\
    send_times s' = send_times s /\
    seqno s' = seqno s /\
    ssthresh s' = ssthresh s /\
    outstanding s' =
      (if dict_mem ackno (outstanding s)
       then dict_del ackno (outstanding s) else outstanding s) /\
    ((ackno = desired_ackno s /\ grow s = Ok (cwnd s') /\ state s' = 0 /\
      desired_ackno s' = dict_first (outstanding s') (seqno s))
     \/
     (ackno <> desired_ackno s /\ cwnd s' = cwnd s /\
      desired_ackno s' = desired_ackno s /\
      state s' = if window_full (cwnd s) (outstanding s') then 2 else 0)).
Proof.
  unfold on_ack, bind.
  destruct (unpack_II ack) as [[m ackno]|] eqn:Hu; [|discriminate]. simpl.
  destruct (send_times s !! ackno) as [t0|] eqn:Hs; [|discriminate].
  destruct (Z.eqb_spec ackno (desired_ackno s)) as [He|Hne].
  - destruct (grow s) as [c|] eqn:Hg; [|discriminate].
    intros [= <-]. exists m, ackno, t0. simpl. repeat split; auto.
  - intros [= <-]. exists m, ackno, t0. simpl. repeat split; auto.
Qed.

Lemma inv_on_ack w ack s s' :
  inv s -> on_ack w ack s = Ok s' -> inv s'.
Proof.
  intros Hinv H.
  destruct (on_ack_cases _ _ _ _ H)
    as (m & ackno & t0 & Hu & Ht0 & Hst & Hsq & Hss & Hout & Hcase).
  destruct Hinv.
  assert (Hsub : forall k, k ∈ keys (outstanding s') -> k ∈ keys (outstanding s)).
  { intros k. rewrite Hout. destruct (dict_mem ackno (outstanding s)); [|done].
    apply keys_dict_del_subset. }
  assert (Hnd : NoDup (keys (outstanding s'))).
  { rewrite Hout. destruct (dict_mem ackno (outstanding s)); [|done].
    by apply NoDup_keys_dict_del. }
  split; try done.
  - destruct Hcase as [(_ & Hg & _)|(_ & -> & _)]; [|done].
    destruct (grow_ok s inv_cwnd0) as (c & Hc & Hle). congruence.
  - intros k Hk. rewrite Hst. auto.
  - intros k. rewrite Hst, Hsq. auto.
  - rewrite Hsq. destruct Hcase as [(_ & _ & _ & ->)|(Hne & _ & -> & _)]; [done|].
    rewrite Hout, inv_desired0.
    destruct (dict_mem ackno (outstanding s)) eqn:Hm; [|done].
    symmetry. apply dict_first_del_ne; [|congruence].
    apply dict_mem_true in Hm. intros E. rewrite E in Hm.
    by apply not_elem_of_nil in Hm.
  - intros _ Hs23. destruct Hcase as [(_ & _ & E & _)|(_ & Hc & _ & E)].
    + rewrite E in Hs23. destruct Hs23; discriminate.
    + destruct (window_full (cwnd s) (outstanding s')) eqn:Hw.
      * eapply window_full_nonempty; eauto.
      * rewrite E in Hs23. destruct Hs23; discriminate.
Qed.

Lemma inv_iteration w s s' :
  inv s -> loop_cond s = true -> iteration w s = Some (Ok s') -> inv s'.
Proof.
  intros Hinv Hl. unfold Tahoe.iteration.
  destruct (Z.eqb_spec (state s) 0) as [E0|_].
  { intros [= <-]. by apply inv_state0. }
  destruct (Z.eqb_spec (state s) 1) as [E1|_].
  { intros [= H]. eapply inv_state1; eauto. }
  destruct (Z.eqb_spec (state s) 2) as [E2|_].
  { unfold state2. destruct (recvfrom w) as [dgram|].
    - intros [= H]. eapply inv_on_ack; eauto.
    - intros [= <-]. by apply inv_on_timeout. }
  destruct (Z.eqb_spec (state s) 3) as [E3|_]; [|discriminate].
  intros [= H]. eapply inv_state3; eauto.
Qed.

(** The invariant holds at the top of every iteration. *)
Lemma reachable_inv n t start s : reachable n t start s -> inv s.
Proof.
  induction 1 as [|s w s' _ IH Hl Hstep].
  - apply inv_init.
  - eapply inv_iteration; eauto.
Qed.

End TahoeInvariant.

(** ** [client_tahoe.py]: runs and reachable states *)

Section TahoeRuns.
Import Tahoe.
Variable wait_for_data : Z -> option bytes.

Lemma main_loop_reachable n t start ws s :
  reachable wait_for_data n t start s ->
  reachable wait_for_data n t start (final (main_loop wait_for_data ws s)).
Proof.
  revert s. induction ws as [|w ws IH]; intros s Hs; simpl.
  - by destruct (loop_cond s).
  - destruct (loop_cond s) eqn:Hl; [|done].
    destruct (iteration wait_for_data w s) as [[s'|e]|] eqn:Hi; try done.
    apply IH. eapply reach_step; eauto.
Qed.

Lemma main_reachable n t start ws :
  reachable wait_for_data n t start (final (main wait_for_data n t start ws)).
Proof. apply main_loop_reachable, reach_init. Qed.

End TahoeRuns.

Lemma two_in_flight_reachable :
  Tahoe.reachable (Scenario.chunks 4) 8 0.5 100 Scenario.two_in_flight.
Proof. apply main_reachable. Qed.

Lemma first_send_reachable :
  Tahoe.reachable (Scenario.chunks 4) 8 0.5 100 Scenario.first_send.
Proof. apply main_reachable. Qed.

(** ** [client_tahoe.py]: ACKs, timeouts and the window *)

Section TahoeStale.
Import Tahoe.

Lemma stale_ack_not_desired s ackno :
  inv s -> is_Some (send_times s !! ackno) ->
  dict_mem ackno (outstanding s) = false ->
  ackno <> desired_ackno s.
Proof.
  intros [] Hsent Hmem. rewrite inv_desired0.
  destruct (outstanding s) as [|[k v] d] eqn:E; simpl.
  - apply inv_below0 in Hsent. lia.
  - apply dict_mem_false in Hmem. simpl in Hmem.
    apply not_elem_of_cons in Hmem. tauto.
Qed.

(** An ACK whose number is in [send_times] and not in [outstanding]:
    only the timing state and the trace change. *)
Lemma on_ack_stale s w ack m ackno t0 :
  inv s ->
  unpack_II ack = Ok (m, ackno) ->
  send_times s !! ackno = Some t0 ->
  dict_mem ackno (outstanding s) = false ->
  exists s',
    on_ack w ack s = Ok s' /\
    outstanding s' = outstanding s /\
    cwnd s' = cwnd s /\
    ssthresh s' = ssthresh s /\
    estimated_rtt s' = estimated_rtt_calc (now w - t0) (estimated_rtt s) /\
    dev_rtt s' = dev_rtt_calc (now w - t0) (estimated_rtt s') (dev_rtt s) /\
    timeout s' = (estimated_rtt s' + 4 * dev_rtt s')%float.
Proof.
  intros Hinv Hu Ht0 Hmem.
  assert (Hne : ackno <> desired_ackno s).
  { apply stale_ack_not_desired; eauto. }
  unfold on_ack, bind. rewrite Hu. simpl. rewrite Ht0, Hmem.
  destruct (Z.eqb_spec ackno (desired_ackno s)); [done|].
  eexists. split; [reflexivity|]. simpl. repeat split.
Qed.

End TahoeStale.

Section TahoeClaims.
Import Tahoe.
Variable wait_for_data : Z -> option bytes.
Local Abbreviation reachable := (reachable wait_for_data).

(** C1, as the code has it: an ACK for a sequence number that was sent and
    has already left the ledger does not fail the session and changes
    neither the ledger nor cwnd nor ssthresh, but the RTT estimator is
    updated from the send time still recorded for that number. *)
Theorem C1_stale_ack n t start s w ack m ackno t0 :
  reachable n t start s ->
  unpack_II ack = Ok (m, ackno) ->
  send_times s !! ackno = Some t0 ->
  dict_mem ackno (outstanding s) = false ->
  exists s',
    on_ack w ack s = Ok s' /\
    outstanding s' = outstanding s /\
    cwnd s' = cwnd s /\
    ssthresh s' = ssthresh s /\
    estimated_rtt s' = estimated_rtt_calc (now w - t0) (estimated_rtt s) /\
    dev_rtt s' = dev_rtt_calc (now w - t0) (estimated_rtt s') (dev_rtt s) /\
    timeout s' = (estimated_rtt s' + 4 * dev_rtt s')%float.
Proof.
  intros Hr. apply on_ack_stale. eapply reachable_inv; eauto.
Qed.

End TahoeClaims.

(** C1, witness: the stale ACK 0 arriving while 1 and 2 are outstanding. *)
Lemma C1_stale_ack_witness :
  exists s',
    Tahoe.on_ack (World 103.5 None) (Scenario.ackp 0)
      Scenario.two_in_flight = Ok s' /\
    Tahoe.outstanding s' = Tahoe.outstanding Scenario.two_in_flight /\
    Tahoe.cwnd s' = Tahoe.cwnd Scenario.two_in_flight /\
    Tahoe.ssthresh s' = Tahoe.ssthresh Scenario.two_in_flight /\
    Tahoe.estimated_rtt s' =
      Tahoe.estimated_rtt_calc (103.5 - 101)
        (Tahoe.estimated_rtt Scenario.two_in_flight) /\
    Tahoe.dev_rtt s' =
      Tahoe.dev_rtt_calc (103.5 - 101) (Tahoe.estimated_rtt s')
        (Tahoe.dev_rtt Scenario.two_in_flight) /\
    Tahoe.timeout s' = (Tahoe.estimated_rtt s' + 4 * Tahoe.dev_rtt s')%float.
Proof.
  apply (C1_stale_ack (Scenario.chunks 4) 8 0.5 100 Scenario.two_in_flight
           (World 103.5 None) (Scenario.ackp 0) 0xBAADCAFE 0 101).
  - exact two_in_flight_reachable.
  - vm_compute. reflexivity.
  - vm_compute. reflexivity.
  - vm_compute. reflexivity.
Defined.

(** C1, counterexample.  With 1 and 2 outstanding, the ACK for 0 (sent,
    acknowledged and removed before) changes the timeout from 0.5 to 2.5;
    the ACK for 7 (never sent) raises [KeyError] at [send_times[ackno]],
    which no handler catches. *)
Lemma C1_counterexample :
  Tahoe.reachable (Scenario.chunks 4) 8 0.5 100 Scenario.two_in_flight /\
  is_Some (Tahoe.send_times Scenario.two_in_flight !! 0) /\
  dict_mem 0 (Tahoe.outstanding Scenario.two_in_flight) = false /\
  ~ (exists s',
       Tahoe.on_ack (World 103.5 None) (Scenario.ackp 0)
         Scenario.two_in_flight = Ok s' /\
       Tahoe.timeout s' = Tahoe.timeout Scenario.two_in_flight) /\
  Tahoe.send_times Scenario.two_in_flight !! 7 = None /\
  Tahoe.main_loop (Scenario.chunks 4)
    [Scenario.ack 103.5 7] Scenario.two_in_flight
  = Tahoe.Crashed KeyError Scenario.two_in_flight.
Proof.
  split; [exact two_in_flight_reachable|].
  split; [exists 101%float; vm_compute; reflexivity|].
  split; [vm_compute; reflexivity|].
  split.
  - intros (s' & H & Ht). vm_compute in H. injection H as <-.
    apply (f_equal (fun x => PrimFloat.eqb x 0.5)) in Ht.
    vm_compute in Ht. discriminate.
  - split; vm_compute; reflexivity.
Qed.

Section TahoeTimeout.
Import Tahoe.
Variable wait_for_data : Z -> option bytes.
Local Abbreviation reachable := (reachable wait_for_data).
Local Abbreviation iteration := (iteration wait_for_data).

Lemma Qfloor_half_nonneg (c : Q) : (1 <= c)%Q -> 0 <= Qfloor (c / 2).
Proof.
  intros Hc. change 0 with (Qfloor 0).
  apply Qfloor_resp_le. apply Qle_shift_div_l; lra.
Qed.

(** C2, as the code has it: cwnd is at least 1 in every reachable state;
    when the wait for an ACK times out, ssthresh becomes floor(cwnd / 2)
    with no lower bound of 1 (it is only known to be at least 0), cwnd
    becomes 1, the stored timeout is doubled and the next state is 3. *)
Theorem C2_timeout_transition n t start s :
  reachable n t start s ->
  (1 <= cwnd s)%Q /\
  forall w,
    loop_cond s = true ->
    state s = 2 ->
    recvfrom w = None ->
    exists s',
      iteration w s = Some (Ok s') /\
      ssthresh s' = Qfloor (cwnd s / 2) /\
      0 <= ssthresh s' /\
      cwnd s' = 1%Q /\
      timeout s' = (timeout s * 2)%float /\
      state s' = 3 /\
      reachable n t start s'.
Proof.
  intros Hr.
  pose proof (reachable_inv _ _ _ _ _ Hr) as Hinv.
  split; [apply Hinv|]. intros w Hl Hst Hw.
  assert (Hi : iteration w s = Some (Ok (on_timeout s))).
  { unfold Tahoe.iteration, state2. rewrite Hst, Hw. reflexivity. }
  exists (on_timeout s). split; [exact Hi|]. simpl.
  repeat split; try reflexivity.
  - apply Qfloor_half_nonneg, Hinv.
  - eapply reach_step; eauto.
Qed.

End TahoeTimeout.

(** C2, witness: the state in which the client first waits for ACK 0. *)
Lemma C2_timeout_transition_witness :
  (1 <= Tahoe.cwnd Scenario.first_send)%Q /\
  forall w,
    Tahoe.loop_cond Scenario.first_send = true ->
    Tahoe.state Scenario.first_send = 2 ->
    recvfrom w = None ->
    exists s',
      Tahoe.iteration (Scenario.chunks 4) w Scenario.first_send
        = Some (Ok s') /\
      Tahoe.ssthresh s' = Qfloor (Tahoe.cwnd Scenario.first_send / 2) /\
      0 <= Tahoe.ssthresh s' /\
      Tahoe.cwnd s' = 1%Q /\
      Tahoe.timeout s' = (Tahoe.timeout Scenario.first_send * 2)%float /\
      Tahoe.state s' = 3 /\
      Tahoe.reachable (Scenario.chunks 4) 8 0.5 100 s'.
Proof.
  apply (C2_timeout_transition (Scenario.chunks 4) 8 0.5 100
           Scenario.first_send).
  exact first_send_reachable.
Defined.

(** C2, counterexample: the first timeout of a session finds cwnd = 1 and
    sets ssthresh to 1 // 2 = 0, below 1. *)
Lemma C2_counterexample :
  Tahoe.reachable (Scenario.chunks 4) 8 0.5 100 Scenario.first_send /\
  Tahoe.state Scenario.first_send = 2 /\
  exists s',
    Tahoe.iteration (Scenario.chunks 4) (Scenario.tick 102) Scenario.first_send
      = Some (Ok s') /\
    Tahoe.ssthresh s' = 0 /\
    ~ (1 <= Tahoe.ssthresh s').
Proof.
  split; [exact first_send_reachable|].
  split; [vm_compute; reflexivity|].
  eexists. split; [vm_compute; reflexivity|].
  split; [reflexivity|]. simpl. lia.
Qed.

Section TahoeDecode.
Import Tahoe.
Variable wait_for_data : Z -> option bytes.

Lemma unpack_II_bad_length (buf : bytes) :
  length buf <> 8%nat -> unpack_II buf = Raise StructError.
Proof.
  intros H. unfold unpack_II.
  do 9 (destruct buf as [|? buf]; try reflexivity).
  simpl in H. lia.
Qed.

Lemma unpack_II_good_length (buf : bytes) :
  length buf = 8%nat -> exists m a, unpack_II buf = Ok (m, a).
Proof.
  intros H. unfold unpack_II.
  do 9 (destruct buf as [|? buf]; try discriminate).
  eauto.
Qed.

Lemma take_100_length (dgram : bytes) :
  length (take 100 dgram) = 8%nat <-> length dgram = 8%nat.
Proof. rewrite length_take. lia. Qed.

(** C3, as the code has it: [struct.unpack] accepts a buffer of exactly 8
    bytes.  A received datagram of any other length, shorter or longer,
    raises [struct.error], which the [except] clause does not catch: the
    session ends there.  A datagram of 8 bytes is decoded and handed to the
    ACK processing. *)
Theorem C3_ack_length w s dgram :
  recvfrom w = Some dgram ->
  (length dgram <> 8%nat ->
     state2 w s = Raise StructError /\
     (loop_cond s = true -> state s = 2 ->
      forall ws,
        main_loop wait_for_data (w :: ws) s = Crashed StructError s)) /\
  (length dgram = 8%nat ->
     (exists m a, unpack_II dgram = Ok (m, a)) /\
     state2 w s = on_ack w dgram s).
Proof.
  intros Hw. split.
  - intros Hlen.
    assert (H2 : state2 w s = Raise StructError).
    { unfold state2, on_ack, bind. rewrite Hw.
      rewrite unpack_II_bad_length; [reflexivity|].
      rewrite take_100_length. exact Hlen. }
    split; [exact H2|]. intros Hl Hst ws. simpl. rewrite Hl.
    unfold iteration. rewrite Hst. simpl. rewrite H2. reflexivity.
  - intros Hlen. split; [by apply unpack_II_good_length|].
    unfold state2. rewrite Hw. rewrite take_ge by lia. reflexivity.
Qed.

End TahoeDecode.

(** C3, witness: a one-byte datagram while waiting for ACK 0. *)
Lemma C3_ack_length_witness :
  (length Scenario.short_ack <> 8%nat ->
     Tahoe.state2 (World 101.5 (Some Scenario.short_ack)) Scenario.first_send
       = Raise StructError /\
     (Tahoe.loop_cond Scenario.first_send = true ->
      Tahoe.state Scenario.first_send = 2 ->
      forall ws,
        Tahoe.main_loop (Scenario.chunks 4)
          (World 101.5 (Some Scenario.short_ack) :: ws) Scenario.first_send
        = Tahoe.Crashed StructError Scenario.first_send)) /\
  (length Scenario.short_ack = 8%nat ->
     (exists m a, unpack_II Scenario.short_ack = Ok (m, a)) /\
     Tahoe.state2 (World 101.5 (Some Scenario.short_ack)) Scenario.first_send
       = Tahoe.on_ack (World 101.5 (Some Scenario.short_ack))
           Scenario.short_ack Scenario.first_send).
Proof.
  apply (C3_ack_length (Scenario.chunks 4)
           (World 101.5 (Some Scenario.short_ack)) Scenario.first_send
           Scenario.short_ack).
  reflexivity.
Defined.

(** C3, counterexample: while the client waits for ACK 0, a one-byte
    datagram ends the session with [struct.error] instead of being dropped,
    and so does the 9-byte datagram whose first 8 bytes are the ACK for 0. *)
Lemma C3_counterexample :
  Tahoe.reachable (Scenario.chunks 4) 8 0.5 100 Scenario.first_send /\
  Tahoe.main_loop (Scenario.chunks 4)
    [World 101.5 (Some Scenario.short_ack)] Scenario.first_send
  = Tahoe.Crashed StructError Scenario.first_send /\
  Tahoe.main_loop (Scenario.chunks 4)
    [World 101.5 (Some Scenario.long_ack)] Scenario.first_send
  = Tahoe.Crashed StructError Scenario.first_send /\
  (exists s',
     Tahoe.main_loop (Scenario.chunks 4)
       [World 101.5 (Some (Scenario.ackp 0))] Scenario.first_send
     = Tahoe.Running s').
Proof.
  split; [exact first_send_reachable|].
  split; [vm_compute; reflexivity|].
  split; [vm_compute; reflexivity|].
  eexists. vm_compute. reflexivity.
Qed.

Section TahoeAdmission.
Import Tahoe.

Lemma window_full_false c (d : dict bytes) :
  window_full c d = false <-> (len d < c)%Q.
Proof.
  unfold window_full. split.
  - intros H. apply Qnot_le_lt. intros Hle.
    apply Qle_bool_iff in Hle. congruence.
  - intros H. destruct (Qle_bool c (len d)) eqn:E; [|done].
    apply Qle_bool_iff in E. apply Qlt_not_le in H. done.
Qed.

(** C4, as the code has it: after a send, and after an ACK other than the
    desired one, the client goes on to fetch new data (state 0) exactly when
    the number of outstanding packets is below cwnd itself, with no rounding
    down, and waits (state 2) otherwise. *)
Theorem C4_admission :
  (forall w s s',
     state1 w s = Ok s' ->
     (state s' = 0 <-> (len (outstanding s') < cwnd s')%Q) /\
     (state s' = 2 <-> ~ (len (outstanding s') < cwnd s')%Q)) /\
  (forall w ack s s' m ackno,
     on_ack w ack s = Ok s' ->
     unpack_II ack = Ok (m, ackno) ->
     ackno <> desired_ackno s ->
     (state s' = 0 <-> (len (outstanding s') < cwnd s')%Q) /\
     (state s' = 2 <-> ~ (len (outstanding s') < cwnd s')%Q)).
Proof.
  assert (Hdec : forall c (d : dict bytes) (st : Z),
            st = (if window_full c d then 2 else 0) ->
            (st = 0 <-> (len d < c)%Q) /\ (st = 2 <-> ~ (len d < c)%Q)).
  { intros c d st ->. rewrite <- window_full_false.
    destruct (window_full c d); split; split; intros; congruence. }
  split.
  - intros w s s'. unfold state1, bind.
    destruct (pack_II magic (seqno s)); [|discriminate].
    destruct (body s); [|discriminate].
    intros [= <-]. simpl. by apply Hdec.
  - intros w ack s s' m ackno H Hu Hne.
    destruct (on_ack_cases _ _ _ _ H)
      as (m' & a' & t0 & Hu' & _ & _ & _ & _ & _ & Hcase).
    rewrite Hu in Hu'. injection Hu' as <- <-.
    destruct Hcase as [(E & _)|(_ & Hc & _ & Hst)]; [done|].
    rewrite Hc. by apply Hdec.
Qed.

End TahoeAdmission.

Lemma fractional_reachable :
  Tahoe.reachable (Scenario.chunks 4) 2 0.5 100 Scenario.fractional.
Proof. apply main_reachable. Qed.

(** C4, counterexample: with cwnd = 5/2 the send of packet 3 leaves 2
    packets outstanding; floor(cwnd) = 2, so 2 < floor(cwnd) is false, yet
    the client goes to state 0 to originate another packet. *)
Lemma C4_counterexample :
  Tahoe.reachable (Scenario.chunks 4) 2 0.5 100 Scenario.fractional /\
  exists s',
    Tahoe.state1 (Scenario.tick 104) Scenario.fractional = Ok s' /\
    (1 <= Tahoe.cwnd s')%Q /\
    length (Tahoe.outstanding s') = 2%nat /\
    Qfloor (Tahoe.cwnd s') = 2 /\
    Tahoe.state s' = 0.
Proof.
  split; [exact fractional_reachable|].
  eexists. split; [vm_compute; reflexivity|].
  split; [vm_compute; discriminate|].
  repeat split; vm_compute; reflexivity.
Qed.

Section TahoeAck.
Import Tahoe.
Variable wait_for_data : Z -> option bytes.
Local Abbreviation reachable := (reachable wait_for_data).

(** An ACK that decodes and whose number has a recorded send time is
    processed to the end. *)
Lemma on_ack_returns s w ack m ackno t0 :
  (1 <= cwnd s)%Q ->
  unpack_II ack = Ok (m, ackno) ->
  send_times s !! ackno = Some t0 ->
  exists s',
    on_ack w ack s = Ok s' /\
    estimated_rtt s' = estimated_rtt_calc (now w - t0) (estimated_rtt s) /\
    dev_rtt s' = dev_rtt_calc (now w - t0) (estimated_rtt s') (dev_rtt s) /\
    timeout s' = (estimated_rtt s' + 4 * dev_rtt s')%float.
Proof.
  intros Hc Hu Ht0. unfold on_ack, bind. rewrite Hu. simpl. rewrite Ht0.
  destruct (Z.eqb_spec ackno (desired_ackno s)).
  - destruct (grow_ok s Hc) as (c & -> & _).
    eexists. split; [reflexivity|]. simpl. repeat split.
  - eexists. split; [reflexivity|]. simpl. repeat split.
Qed.

(** C6: an ACK with a recorded send time sets
    estimatedRTT' = 0.125 * sampleRTT + 0.875 * estimatedRTT,
    devRTT' = 0.25 * |sampleRTT - estimatedRTT'| + 0.75 * devRTT and
    timeout' = estimatedRTT' + 4 * devRTT', where sampleRTT is the time of
    receipt minus the recorded send time, in binary64 arithmetic; at the
    start estimatedRTT is the default timeout and devRTT is 0. *)
Theorem C6_rtt_update n t start s w ack m ackno t0 :
  reachable n t start s ->
  unpack_II ack = Ok (m, ackno) ->
  send_times s !! ackno = Some t0 ->
  (exists s',
     on_ack w ack s = Ok s' /\
     estimated_rtt s' =
       (0.125 * (now w - t0) + 0.875 * estimated_rtt s)%float /\
     dev_rtt s' =
       (0.25 * abs ((now w - t0) - estimated_rtt s') + 0.75 * dev_rtt s)%float /\
     timeout s' = (estimated_rtt s' + 4 * dev_rtt s')%float) /\
  estimated_rtt (init n t start) = t /\
  dev_rtt (init n t start) = 0%float.
Proof.
  intros Hr Hu Ht0.
  pose proof (inv_cwnd _ (reachable_inv _ _ _ _ _ Hr)) as Hc.
  split; [|split; reflexivity].
  destruct (on_ack_returns s w ack m ackno t0 Hc Hu Ht0)
    as (s' & H & He & Hd & Ht).
  exists s'. split; [exact H|]. split; [|split].
  - rewrite He. reflexivity.
  - rewrite Hd. reflexivity.
  - exact Ht.
Qed.

(** C9: in a reachable state, an ACK processed a second time right after
    the first is processed to the end and leaves the ledger, cwnd and
    ssthresh as the first processing left them. *)
Theorem C9_duplicate_ack n t start s w1 w2 ack s1 :
  reachable n t start s ->
  on_ack w1 ack s = Ok s1 ->
  exists s2,
    on_ack w2 ack s1 = Ok s2 /\
    outstanding s2 = outstanding s1 /\
    cwnd s2 = cwnd s1 /\
    ssthresh s2 = ssthresh s1.
Proof.
  intros Hr H1.
  pose proof (reachable_inv _ _ _ _ _ Hr) as Hinv.
  pose proof (inv_on_ack _ _ _ _ Hinv H1) as Hinv1.
  destruct (on_ack_cases _ _ _ _ H1)
    as (m & ackno & t0 & Hu & Ht0 & Hst & _ & _ & Hout & _).
  assert (Hmem : dict_mem ackno (outstanding s1) = false).
  { apply dict_mem_false. rewrite Hout.
    destruct (dict_mem ackno (outstanding s)) eqn:E.
    - apply not_in_keys_dict_del, Hinv.
    - by apply dict_mem_false. }
  rewrite <- Hst in Ht0.
  destruct (on_ack_stale s1 w2 ack m ackno t0 Hinv1 Hu Ht0 Hmem)
    as (s2 & H2 & Ho & Hc & Hs & _).
  exists s2. auto.
Qed.

End TahoeAck.

(** C6, witness: the ACK for 1 received 1.5 s after packet 1 was sent. *)
Lemma C6_rtt_update_witness :
  (exists s',
     Tahoe.on_ack (World 103.5 None) (Scenario.ackp 1) Scenario.two_in_flight
       = Ok s' /\
     Tahoe.estimated_rtt s' =
       (0.125 * (103.5 - 102)
        + 0.875 * Tahoe.estimated_rtt Scenario.two_in_flight)%float /\
     Tahoe.dev_rtt s' =
       (0.25 * abs ((103.5 - 102) - Tahoe.estimated_rtt s')
        + 0.75 * Tahoe.dev_rtt Scenario.two_in_flight)%float /\
     Tahoe.timeout s' = (Tahoe.estimated_rtt s' + 4 * Tahoe.dev_rtt s')%float) /\
  Tahoe.estimated_rtt (Tahoe.init 8 0.5 100) = 0.5%float /\
  Tahoe.dev_rtt (Tahoe.init 8 0.5 100) = 0%float.
Proof.
  apply (C6_rtt_update (Scenario.chunks 4) 8 0.5 100 Scenario.two_in_flight
           (World 103.5 None) (Scenario.ackp 1) 0xBAADCAFE 1 102).
  - exact two_in_flight_reachable.
  - vm_compute. reflexivity.
  - vm_compute. reflexivity.
Defined.

(** C9, witness: the ACK for 1 delivered again after it was processed. *)
Lemma C9_duplicate_ack_witness :
  exists s2,
    Tahoe.on_ack (World 103.75 None) (Scenario.ackp 1) Scenario.after_ack_one
      = Ok s2 /\
    Tahoe.outstanding s2 = Tahoe.outstanding Scenario.after_ack_one /\
    Tahoe.cwnd s2 = Tahoe.cwnd Scenario.after_ack_one /\
    Tahoe.ssthresh s2 = Tahoe.ssthresh Scenario.after_ack_one.
Proof.
  apply (C9_duplicate_ack (Scenario.chunks 4) 8 0.5 100 Scenario.two_in_flight
           (World 103.5 None) (World 103.75 None) (Scenario.ackp 1)
           Scenario.after_ack_one).
  - exact two_in_flight_reachable.
  - vm_compute. reflexivity.
Defined.

(** ** [client_tahoe.py]: the growth of the window in Python's arithmetic *)

Section CwndFacts.
Import Cwnd.







End CwndFacts.




(** ** [client_tahoe.py]: retransmission and the data source *)

Section TahoeFramed.
Import Tahoe.

Lemma framed_state1 w s s' : framed s -> state1 w s = Ok s' -> framed s'.
Proof.
  intros Hf. unfold state1, bind.
  destruct (pack_II magic (seqno s)) as [hdr|] eqn:Hp; [|discriminate].
  destruct (body s) as [b|]; [|discriminate].
  intros [= <-] k pkt. simpl. intros [[= -> ->]|H]%elem_dict_set.
  - eauto.
  - by apply Hf.
Qed.

Lemma framed_on_ack w ack s s' : framed s -> on_ack w ack s = Ok s' -> framed s'.
Proof.
  intros Hf H k pkt.
  destruct (on_ack_cases _ _ _ _ H)
    as (m & ackno & t0 & _ & _ & _ & _ & _ & -> & _).
  destruct (dict_mem ackno (outstanding s)); [|by apply Hf].
  intros Hin%elem_dict_del. by apply Hf.
Qed.

Lemma framed_state3 w s s' : framed s -> state3 w s = Ok s' -> framed s'.
Proof.
  intros Hf. unfold state3.
  destruct (dict_get (desired_ackno s) (outstanding s)); [|discriminate].
  intros [= <-]. exact Hf.
Qed.

End TahoeFramed.

Section TahoeSource.
Import Tahoe.
Variable wait_for_data : Z -> option bytes.
Local Abbreviation reachable := (reachable wait_for_data).
Local Abbreviation iteration := (iteration wait_for_data).
Local Abbreviation asked_inv := (asked_inv wait_for_data).
Local Abbreviation asked_with_data := (asked_with_data wait_for_data).

Lemma reachable_framed n t start s : reachable n t start s -> framed s.
Proof.
  induction 1 as [|s w s' _ IH Hl Hstep].
  - intros k pkt Hin. by apply elem_of_nil in Hin.
  - revert Hstep. unfold Tahoe.iteration.
    destruct (state s =? 0); [intros [= <-]; exact IH|].
    destruct (state s =? 1); [intros [= H]; eapply framed_state1; eauto|].
    destruct (state s =? 2).
    { unfold state2. destruct (recvfrom w).
      - intros [= H]. eapply framed_on_ack; eauto.
      - intros [= <-]. exact IH. }
    destruct (state s =? 3); [|discriminate].
    intros [= H]. eapply framed_state3; eauto.
Qed.

(** A step that leaves [asked] and [seqno] alone, taken from a state other
    than 1, keeps what is known of the queries. *)
Lemma asked_inv_keep s s' :
  asked_inv s -> state s <> 1 ->
  asked s' = asked s -> seqno s' = seqno s ->
  asked_inv s'.
Proof.
  intros [Hnd Hlt] Hst Ha Hs. unfold Tahoe.asked_inv, Tahoe.asked_with_data in *.
  rewrite Ha, Hs. split; [done|].
  intros k Hk. left. destruct (Hlt k Hk) as [?|[_ ?]]; [done|congruence].
Qed.

Lemma asked_inv_iteration w s s' :
  asked_inv s -> iteration w s = Some (Ok s') -> asked_inv s'.
Proof.
  intros Hinv. unfold Tahoe.iteration.
  destruct (Z.eqb_spec (state s) 0) as [E0|N0].
  { intros [= <-]. destruct Hinv as [Hnd Hlt].
    assert (Hold : forall k, k ∈ asked_with_data s -> k < seqno s).
    { intros k Hk. destruct (Hlt k Hk) as [?|[_ ?]]; [done|congruence]. }
    unfold Tahoe.asked_inv, Tahoe.asked_with_data, state0 in *. simpl.
    destruct (wait_for_data (seqno s)) eqn:Hd; simpl.
    - split.
      + apply NoDup_cons. split; [|done].
        intros Hin. apply Hold in Hin. lia.
      + intros k [->|Hk]%elem_of_cons; [by right|]. left. by apply Hold.
    - split; [done|]. intros k Hk. left. by apply Hold. }
  destruct (Z.eqb_spec (state s) 1) as [E1|N1].
  { unfold state1, bind.
    destruct (pack_II magic (seqno s)); [|discriminate].
    destruct (body s); [|discriminate].
    intros [= <-]. destruct Hinv as [Hnd Hlt].
    unfold Tahoe.asked_inv, Tahoe.asked_with_data in *. simpl.
    split; [done|]. intros k Hk. left.
    destruct (Hlt k Hk) as [?|[-> _]]; lia. }
  destruct (Z.eqb_spec (state s) 2) as [E2|N2].
  { unfold state2. destruct (recvfrom w).
    - intros [= H].
      destruct (on_ack_cases _ _ _ _ H)
        as (m & ackno & t0 & _ & _ & _ & Hsq & _).
      apply (asked_inv_keep s); auto.
      revert H. unfold on_ack, bind.
      destruct (unpack_II _) as [[? ?]|]; [|discriminate]. simpl.
      destruct (send_times s !! _); [|discriminate].
      destruct (_ =? _).
      + destruct (grow s); [|discriminate]. by intros [= <-].
      + by intros [= <-].
    - intros [= <-]. by apply (asked_inv_keep s). }
  destruct (Z.eqb_spec (state s) 3) as [E3|N3]; [|discriminate].
  unfold state3.
  destruct (dict_get (desired_ackno s) (outstanding s)); [|discriminate].
  intros [= <-]. by apply (asked_inv_keep s).
Qed.

Lemma reachable_asked_inv n t start s : reachable n t start s -> asked_inv s.
Proof.
  induction 1 as [|s w s' _ IH Hl Hstep].
  - split; simpl; [apply NoDup_nil_2|].
    intros k Hk. by apply elem_of_nil in Hk.
  - eapply asked_inv_iteration; eauto.
Qed.

(** What state 3 does in a reachable state. *)
Lemma state3_resends n t start s w :
  reachable n t start s ->
  loop_cond s = true ->
  state s = 3 ->
  exists pkt s',
    dict_get (desired_ackno s) (outstanding s) = Some pkt /\
    (exists hdr b, pack_II magic (desired_ackno s) = Ok hdr /\ pkt = hdr ++ b) /\
    iteration w s = Some (Ok s') /\
    sent s' = pkt :: sent s /\
    send_times s' = <[desired_ackno s := now w]> (send_times s) /\
    outstanding s' = outstanding s /\
    asked s' = asked s /\
    state s' = 2 /\
    traced s' =
      Row (seqno s) (now w - Tahoe.start s)%float 0 0%float :: traced s /\
    desired_ackno s < seqno s.
Proof.
  intros Hr Hl Hst.
  pose proof (reachable_inv _ _ _ _ _ Hr) as Hinv.
  pose proof (reachable_framed _ _ _ _ Hr) as Hf.
  assert (Hne : outstanding s <> []).
  { apply Hinv; auto. }
  assert (Hin : desired_ackno s ∈ keys (outstanding s)).
  { rewrite (inv_desired _ Hinv). by apply dict_first_in. }
  destruct (dict_get_in_keys _ _ Hin) as [pkt Hpkt].
  exists pkt. eexists. split; [exact Hpkt|].
  split; [apply Hf; by apply dict_get_Some_elem|].
  split.
  { unfold Tahoe.iteration, state3. rewrite Hst, Hpkt. reflexivity. }
  simpl. repeat split.
  apply (inv_below _ Hinv), (inv_sent _ Hinv), Hin.
Qed.

(** C7: in state 3 one datagram is sent, the ledger entry for
    [desired_ackno], whose header carries that number; its send time is
    refreshed and the next state is 2.  The row written to the trace carries
    [seqno], the number of the next packet to originate, which is larger
    than the number of the packet that was resent. *)
Theorem C7_retransmit n t start s w :
  reachable n t start s ->
  loop_cond s = true ->
  state s = 3 ->
  exists pkt s',
    dict_get (desired_ackno s) (outstanding s) = Some pkt /\
    (exists hdr b, pack_II magic (desired_ackno s) = Ok hdr /\ pkt = hdr ++ b) /\
    iteration w s = Some (Ok s') /\
    sent s' = pkt :: sent s /\
    send_times s' = <[desired_ackno s := now w]> (send_times s) /\
    state s' = 2 /\
    (exists r, traced s' = r :: traced s /\
               r_seqno r = seqno s /\ r_seqno r <> desired_ackno s).
Proof.
  intros Hr Hl Hst.
  destruct (state3_resends n t start s w Hr Hl Hst)
    as (pkt & s' & Hg & Hh & Hi & Hs & Ht & _ & _ & H2 & Htr & Hlt).
  exists pkt, s'. repeat (split; [assumption|]).
  eexists. split; [exact Htr|]. simpl. split; [reflexivity|lia].
Qed.

(** C8, as the code has it: the data source is never asked twice for a
    sequence number it answered with a payload, and state 3 resends the
    packet kept in the ledger without asking the data source.  (A sequence
    number answered with end of data can be asked for again.) *)
Theorem C8_source_queries n t start s :
  reachable n t start s ->
  NoDup (asked_with_data s) /\
  forall w, loop_cond s = true -> state s = 3 ->
    exists pkt s',
      iteration w s = Some (Ok s') /\
      dict_get (desired_ackno s) (outstanding s) = Some pkt /\
      sent s' = pkt :: sent s /\
      asked s' = asked s.
Proof.
  intros Hr. split; [apply (reachable_asked_inv _ _ _ _ Hr)|].
  intros w Hl Hst.
  destruct (state3_resends n t start s w Hr Hl Hst)
    as (pkt & s' & Hg & _ & Hi & Hs & _ & _ & Ha & _).
  exists pkt, s'. auto.
Qed.

End TahoeSource.

Lemma timed_out_reachable :
  Tahoe.reachable (Scenario.chunks 4) 8 0.5 100 Scenario.timed_out.
Proof. apply main_reachable. Qed.

(** C7, witness: packet 0 is resent after the first timeout, and the trace
    row carries 1. *)
Lemma C7_retransmit_witness :
  exists pkt s',
    dict_get (Tahoe.desired_ackno Scenario.timed_out)
      (Tahoe.outstanding Scenario.timed_out) = Some pkt /\
    (exists hdr b,
       pack_II Tahoe.magic (Tahoe.desired_ackno Scenario.timed_out) = Ok hdr /\
       pkt = hdr ++ b) /\
    Tahoe.iteration (Scenario.chunks 4) (Scenario.tick 102.5) Scenario.timed_out
      = Some (Ok s') /\
    Tahoe.sent s' = pkt :: Tahoe.sent Scenario.timed_out /\
    Tahoe.send_times s' =
      <[Tahoe.desired_ackno Scenario.timed_out := 102.5%float]>
        (Tahoe.send_times Scenario.timed_out) /\
    Tahoe.state s' = 2 /\
    (exists r, Tahoe.traced s' = r :: Tahoe.traced Scenario.timed_out /\
               r_seqno r = Tahoe.seqno Scenario.timed_out /\
               r_seqno r <> Tahoe.desired_ackno Scenario.timed_out).
Proof.
  apply (C7_retransmit (Scenario.chunks 4) 8 0.5 100 Scenario.timed_out
           (Scenario.tick 102.5)).
  - exact timed_out_reachable.
  - vm_compute. reflexivity.
  - vm_compute. reflexivity.
Defined.

(** C7 on a concrete run: the datagram resent is packet 0, and the row
    written for it has 1 in the SeqNo column. *)
Lemma retransmit_after_first_timeout :
  exists s',
    Tahoe.iteration (Scenario.chunks 4) (Scenario.tick 102.5) Scenario.timed_out
      = Some (Ok s') /\
    Tahoe.desired_ackno Scenario.timed_out = 0 /\
    hd_error (Tahoe.sent s') = Some (be32 Tahoe.magic ++ be32 0 ++ [Byte.x61]) /\
    hd_error (Tahoe.traced s') = Some (Row 1 2.5 0 0).
Proof.
  eexists. split; [vm_compute; reflexivity|].
  repeat split; vm_compute; reflexivity.
Qed.

(** C8, witness: the state in which packet 0 is about to be resent. *)
Lemma C8_source_queries_witness :
  NoDup (Tahoe.asked_with_data (Scenario.chunks 4) Scenario.timed_out) /\
  forall w,
    Tahoe.loop_cond Scenario.timed_out = true ->
    Tahoe.state Scenario.timed_out = 3 ->
    exists pkt s',
      Tahoe.iteration (Scenario.chunks 4) w Scenario.timed_out = Some (Ok s') /\
      dict_get (Tahoe.desired_ackno Scenario.timed_out)
        (Tahoe.outstanding Scenario.timed_out) = Some pkt /\
      Tahoe.sent s' = pkt :: Tahoe.sent Scenario.timed_out /\
      Tahoe.asked s' = Tahoe.asked Scenario.timed_out.
Proof.
  apply (C8_source_queries (Scenario.chunks 4) 8 0.5 100 Scenario.timed_out).
  exact timed_out_reachable.
Defined.

(** C8, counterexample: in a session of four chunks with no loss, the data
    source answers end of data for 4 while 2 and 3 are outstanding; the ACK
    for 2 sends the client back to state 0, which asks for 4 again. *)
Lemma C8_counterexample :
  exists s,
    Scenario.session = Tahoe.Finished s /\
    Scenario.chunks 4 4 = None /\
    rev (Tahoe.asked s) = [0; 1; 2; 3; 4; 4] /\
    ~ NoDup (Tahoe.asked s).
Proof.
  eexists. split; [vm_compute; reflexivity|].
  split; [reflexivity|]. split; [vm_compute; reflexivity|].
  simpl. intros H. apply NoDup_cons in H as [H _].
  apply H. apply elem_of_cons. by left.
Qed.

(** ** The stop-and-wait client against the windowed machine, window 1 *)

Section SawRefines.
Import Refinement.
Variable wait_for_data : Z -> option bytes.
Local Abbreviation wstep := (Windowed.step wait_for_data Saw.magic 1).
Local Abbreviation wrun := (Windowed.run wait_for_data Saw.magic 1).

Lemma unpack_decode (dgram : bytes) m a :
  unpack_II (take 100 dgram) = Ok (m, a) ->
  Windowed.decodeAck dgram = Some (m, a).
Proof.
  do 9 (destruct dgram as [|? dgram]; try discriminate).
  simpl. by intros [= <- <-].
Qed.

Lemma pack_encode marker k hdr (p : bytes) :
  pack_II marker k = Ok hdr ->
  hdr ++ p = Windowed.encodeDataPacket marker k p.
Proof.
  unfold pack_II, Windowed.encodeDataPacket.
  destruct (u32_ok marker && u32_ok k); [|discriminate].
  intros [= <-]. reflexivity.
Qed.

Lemma sim_terminal s m :
  sim s m -> Windowed.terminal m = negb (Saw.have_more_data s).
Proof.
  unfold Windowed.terminal.
  intros (_ & _ & _ & _ & [H|[H|[H|H]]]).
  - destruct H as (_ & -> & _ & -> & _). reflexivity.
  - destruct H as (_ & -> & -> & ->). reflexivity.
  - destruct H as (_ & -> & _ & -> & _). reflexivity.
  - destruct H as (_ & -> & _ & -> & _). reflexivity.
Qed.

Lemma sim_step w s m :
  sim s m -> Saw.have_more_data s = true -> matched s w ->
  match Saw.iteration wait_for_data w s with
  | Saw.Next s' => sim s' (wstep w m)
  | Saw.Throw e => e = StructError /\ 2 ^ 32 <= Saw.seqno s
  | Saw.Block => False
  | Saw.Break => False
  end.
Proof.
  intros (Hsent & Hre & Hma & Hpos & Hcase) Hmore Hmatch.
  unfold Saw.iteration, Windowed.step.
  destruct Hcase as [H|[H|[H|H]]].
  - (* state 0, more data *)
    destruct H as (Hst & _ & Hph & Hex & Hl & Hn & Hd).
    rewrite Hst, Hph. simpl.
    unfold sim, Saw.state0, Windowed.fill_window. rewrite Hn.
    destruct (wait_for_data (Saw.seqno s)) as [p|]; simpl.
    + repeat split; auto. right; right; left. repeat split; eauto.
    + repeat split; auto. right; left. repeat split; auto.
  - destruct H as (_ & Hf & _). congruence.
  - (* state 1 *)
    destruct H as (Hst & _ & (p & Hb & Hph) & Hex & Hl & Hn & Hd).
    rewrite Hst, Hph. simpl. unfold Saw.state1, bind.
    destruct (pack_II Saw.magic (Saw.seqno s)) as [hdr|] eqn:Hp.
    2:{ revert Hp. unfold pack_II, u32_ok.
        destruct (Z.ltb_spec (Saw.seqno s) (2 ^ 32)) as [Hlt|Hge].
        - replace (0 <=? Saw.seqno s) with true
            by (symmetry; apply Z.leb_le; lia).
          discriminate.
        - rewrite andb_false_r. simpl. by intros [= <-]. }
    rewrite Hb. unfold sim, Windowed.send. rewrite Hl, Hn. simpl.
    repeat split; auto.
    + erewrite pack_encode by eauto. by rewrite Hsent.
    + right; right; right. repeat split; eauto.
  - (* state 2 *)
    destruct H as (Hst & _ & Hph & Hex & (sg & Hl) & Hn & Hd).
    destruct (Hmatch Hst) as (dgram & mk & Hw & Hu).
    rewrite Hst, Hph. simpl. rewrite Hw.
    unfold Saw.on_ack, bind. rewrite Hu. simpl.
    unfold sim, Windowed.await_ack. rewrite Hw.
    rewrite (unpack_decode _ _ _ Hu). rewrite Hd, Z.eqb_refl.
    unfold Windowed.remove, dict_mem. rewrite Hl. simpl.
    rewrite Z.eqb_refl. simpl. rewrite Hex. simpl.
    repeat split; auto; try lia.
    left. repeat split; auto.
Qed.

(** On a clean script the two machines run in step, one state for one
    state. *)
Lemma sim_run ws : forall s m,
  sim s m -> clean wait_for_data ws s ->
  match Saw.main_loop wait_for_data ws s with
  | Saw.Finished s' =>
      exists m', wrun ws m = Windowed.Finished m' /\ sim s' m' /\
                 Saw.have_more_data s' = false
  | Saw.Running s' => exists m', wrun ws m = Windowed.Running m' /\ sim s' m'
  | Saw.Crashed e s' => e = StructError /\ 2 ^ 32 <= Saw.seqno s'
  | Saw.Blocked _ => False
  end.
Proof.
  induction ws as [|w ws IH]; intros s m Hsim Hclean; simpl.
  - rewrite (sim_terminal _ _ Hsim).
    destruct (Saw.have_more_data s) eqn:Hmore; simpl; eauto.
  - rewrite (sim_terminal _ _ Hsim).
    destruct (Saw.have_more_data s) eqn:Hmore; simpl; [|eauto].
    destruct Hclean as [Hmatch Hrest].
    pose proof (sim_step w s m Hsim Hmore Hmatch) as Hstep.
    destruct (Saw.iteration wait_for_data w s) as [s'|e| |]; try done.
    by apply IH.
Qed.

Lemma sim_init start : sim (Saw.init start) Windowed.init.
Proof.
  unfold sim. simpl. repeat split; auto; try lia.
  left. repeat split; auto.
Qed.

End SawRefines.

(** ** The burst client against the windowed machine, large window *)

Section BurstRefines.
Variable wait_for_data : Z -> option bytes.
Variable n : Z.
Variable t : float.
Variable sleep : float -> option exn.
Variable window : nat.
Local Abbreviation bloop := (Burst.main_loop wait_for_data n t sleep).
Local Abbreviation wrun := (Windowed.run wait_for_data Burst.magic window).
Local Abbreviation frames := (Windowed.frames wait_for_data Burst.magic).

Lemma bloop_step w ws s s1 :
  Burst.have_more_data s = true ->
  Burst.iteration wait_for_data n t sleep w s = Some (Ok s1) ->
  bloop (w :: ws) s = bloop ws s1.
Proof. intros Hmore Hi. simpl. by rewrite Hmore, Hi. Qed.

Lemma burst_state0_data w s p :
  Burst.state s = 0 -> wait_for_data (Burst.seqno s) = Some p -> n <> 0 ->
  exists s0,
    Burst.iteration wait_for_data n t sleep w s = Some (Ok s0) /\
    Burst.seqno s0 = Burst.seqno s /\ Burst.body s0 = Some p /\
    Burst.have_more_data s0 = Burst.have_more_data s /\
    Burst.sent s0 = Burst.sent s /\
    (Burst.state s0 = 1 \/ Burst.state s0 = 2).
Proof.
  intros Hst Hp Hn. unfold Burst.iteration, Burst.state0. rewrite Hst, Hp.
  simpl. destruct (Z.eqb_spec n 0); [done|].
  eexists. split; [reflexivity|]. simpl. repeat split.
  destruct (_ =? 0); auto.
Qed.

Lemma burst_state1 w s :
  sleep t = None ->
  Burst.state s = 1 ->
  exists s1,
    Burst.iteration wait_for_data n t sleep w s = Some (Ok s1) /\
    Burst.seqno s1 = Burst.seqno s /\ Burst.body s1 = Burst.body s /\
    Burst.have_more_data s1 = Burst.have_more_data s /\
    Burst.sent s1 = Burst.sent s /\
    Burst.state s1 = 2.
Proof.
  intros Hsl Hst. unfold Burst.iteration, Burst.state1. rewrite Hst, Hsl.
  simpl. eexists. split; [reflexivity|]. simpl. repeat split.
Qed.

Lemma burst_state2 w s p hdr :
  Burst.state s = 2 -> Burst.body s = Some p ->
  pack_II Burst.magic (Burst.seqno s) = Ok hdr ->
  exists s2,
    Burst.iteration wait_for_data n t sleep w s = Some (Ok s2) /\
    Burst.seqno s2 = Burst.seqno s + 1 /\
    Burst.have_more_data s2 = Burst.have_more_data s /\
    Burst.sent s2 = (hdr ++ p) :: Burst.sent s /\
    Burst.state s2 = 0.
Proof.
  intros Hst Hb Hp. unfold Burst.iteration, Burst.state2, bind.
  rewrite Hst, Hp, Hb. simpl.
  eexists. split; [reflexivity|]. simpl. repeat split.
Qed.

Lemma pack_II_in_range marker k :
  u32_ok marker = true -> 0 <= k < 2 ^ 32 ->
  exists hdr, pack_II marker k = Ok hdr.
Proof.
  intros Hm Hk. unfold pack_II. rewrite Hm. unfold u32_ok.
  replace (0 <=? k) with true by (symmetry; apply Z.leb_le; lia).
  replace (k <? 2 ^ 32) with true by (symmetry; apply Z.ltb_lt; lia).
  simpl. eauto.
Qed.

(** From state 0 the burst client sends the remaining [c] chunks, one
    packet each, and stops when the data source has no more. *)
Lemma burst_sends c : forall s ws,
  sleep t = None ->
  Burst.state s = 0 ->
  Burst.have_more_data s = true ->
  0 <= Burst.seqno s ->
  Burst.seqno s + Z.of_nat c <= 2 ^ 32 ->
  (forall i, 0 <= i < Z.of_nat c -> wait_for_data (Burst.seqno s + i) <> None) ->
  wait_for_data (Burst.seqno s + Z.of_nat c) = None ->
  n <> 0 ->
  (3 * c + 1 <= length ws)%nat ->
  exists s',
    bloop ws s = Burst.Finished s' /\
    Burst.sent s' = rev (frames (Burst.seqno s) c) ++ Burst.sent s.
Proof.
  induction c as [|c IH];
    intros s ws Hsl Hst Hmore Hpos Hmax Hdata Hend Hn Hlen.
  - destruct ws as [|w ws]; [simpl in Hlen; lia|].
    rewrite Z.add_0_r in Hend.
    simpl. rewrite Hmore. unfold Burst.iteration, Burst.state0.
    rewrite Hst, Hend. simpl.
    destruct ws; simpl; eauto.
  - assert (Hsome : wait_for_data (Burst.seqno s) <> None).
    { rewrite <- (Z.add_0_r (Burst.seqno s)). apply Hdata. lia. }
    destruct (wait_for_data (Burst.seqno s)) as [p|] eqn:Hp; [|done].
    destruct (pack_II_in_range Burst.magic (Burst.seqno s)) as [hdr Hhdr];
      [reflexivity | lia |].
    assert (Hnext : forall s2 ws2,
              Burst.state s2 = 0 -> Burst.have_more_data s2 = true ->
              Burst.seqno s2 = Burst.seqno s + 1 ->
              Burst.sent s2 = (hdr ++ p) :: Burst.sent s ->
              (3 * c + 1 <= length ws2)%nat ->
              exists s',
                bloop ws2 s2 = Burst.Finished s' /\
                Burst.sent s' =
                  rev (frames (Burst.seqno s) (S c)) ++ Burst.sent s).
    { intros s2 ws2 H0 H1 H2 H3 H4.
      destruct (IH s2 ws2) as (s' & Hrun & Hs'); auto.
      - lia.
      - lia.
      - intros i Hi. rewrite H2.
        replace (Burst.seqno s + 1 + i) with (Burst.seqno s + (i + 1)) by lia.
        apply Hdata. lia.
      - rewrite H2. rewrite <- Hend. f_equal. lia.
      - exists s'. split; [exact Hrun|].
        rewrite Hs', H2, H3. simpl. rewrite Hp. simpl.
        rewrite (pack_encode _ _ _ p Hhdr).
        rewrite <- app_assoc. reflexivity. }
    destruct ws as [|w0 ws]; [simpl in Hlen; lia|].
    destruct (burst_state0_data w0 s p Hst Hp Hn)
      as (s0 & Hi0 & Hq0 & Hb0 & Hm0 & Hs0 & Hst0).
    rewrite (bloop_step _ _ _ _ Hmore Hi0). rewrite Hmore in Hm0.
    destruct Hst0 as [Hst0|Hst0].
    + (* the start of a burst: sleep, then send *)
      destruct ws as [|w1 ws]; [simpl in Hlen; lia|].
      destruct (burst_state1 w1 s0 Hsl Hst0)
        as (s1 & Hi1 & Hq1 & Hb1 & Hm1 & Hs1 & Hst1).
      rewrite (bloop_step _ _ _ _ Hm0 Hi1). rewrite Hm0 in Hm1.
      destruct ws as [|w2 ws]; [simpl in Hlen; lia|].
      destruct (burst_state2 w2 s1 p hdr Hst1)
        as (s2 & Hi2 & Hq2 & Hm2 & Hs2 & Hst2); [congruence|congruence|].
      rewrite (bloop_step _ _ _ _ Hm1 Hi2).
      apply Hnext; try congruence. simpl in Hlen. lia.
    + (* inside a burst: send *)
      destruct ws as [|w2 ws]; [simpl in Hlen; lia|].
      destruct (burst_state2 w2 s0 p hdr Hst0)
        as (s2 & Hi2 & Hq2 & Hm2 & Hs2 & Hst2); [congruence|congruence|].
      rewrite (bloop_step _ _ _ _ Hm0 Hi2).
      apply Hnext; try congruence. simpl in Hlen. lia.
Qed.

Lemma wrun_step w ws m :
  Windowed.dataExhausted m = false ->
  wrun (w :: ws) m = wrun ws (Windowed.step wait_for_data Burst.magic window w m).
Proof.
  intros Hex. simpl. unfold Windowed.terminal. by rewrite Hex.
Qed.

(** The windowed machine with room in its window originates the same [c]
    packets in its first [2 * c + 1] steps, and then knows that the data
    source is exhausted. *)
Lemma windowed_sends c : forall m ws,
  Windowed.at_phase m = Windowed.FillWindow ->
  Windowed.dataExhausted m = false ->
  (length (Windowed.ledger m) + c < window)%nat ->
  (forall i, 0 <= i < Z.of_nat c ->
     wait_for_data (Windowed.nextSeqno m + i) <> None) ->
  wait_for_data (Windowed.nextSeqno m + Z.of_nat c) = None ->
  length ws = (2 * c + 1)%nat ->
  Windowed.sends (Windowed.final (wrun ws m))
    = rev (frames (Windowed.nextSeqno m) c) ++ Windowed.sends m /\
  Windowed.dataExhausted (Windowed.final (wrun ws m)) = true /\
  Windowed.retransmissions (Windowed.final (wrun ws m))
    = Windowed.retransmissions m /\
  Windowed.matches (Windowed.final (wrun ws m)) = Windowed.matches m.
Proof.
  induction c as [|c IH]; intros m ws Hph Hex Hroom Hdata Hend Hlen.
  - destruct ws as [|w [|? ?]]; try (simpl in Hlen; lia).
    rewrite Z.add_0_r in Hend.
    rewrite wrun_step by done.
    unfold Windowed.step, Windowed.fill_window. rewrite Hph, Hend.
    simpl. destruct (Windowed.terminal _); simpl; auto.
  - assert (Hsome : wait_for_data (Windowed.nextSeqno m) <> None).
    { rewrite <- (Z.add_0_r (Windowed.nextSeqno m)). apply Hdata. lia. }
    destruct (wait_for_data (Windowed.nextSeqno m)) as [p|] eqn:Hp; [|done].
    destruct ws as [|w0 [|w1 ws]]; try (simpl in Hlen; lia).
    set (m1 := Windowed.fill_window wait_for_data m).
    assert (Em1 : m1 =
              {| Windowed.at_phase := Windowed.Send p;
                 Windowed.nextSeqno := Windowed.nextSeqno m;
                 Windowed.desiredAckno := Windowed.desiredAckno m;
                 Windowed.dataExhausted := Windowed.dataExhausted m;
                 Windowed.ledger := Windowed.ledger m;
                 Windowed.sends := Windowed.sends m;
                 Windowed.matches := Windowed.matches m;
                 Windowed.retransmissions := Windowed.retransmissions m |}).
    { unfold m1, Windowed.fill_window. by rewrite Hp. }
    assert (Hm1 : Windowed.step wait_for_data Burst.magic window w0 m = m1).
    { unfold Windowed.step. by rewrite Hph. }
    set (m2 := Windowed.send Burst.magic window w1 p m1).
    assert (Hm2 : Windowed.step wait_for_data Burst.magic window w1 m1 = m2).
    { unfold Windowed.step, m2. rewrite Em1. reflexivity. }
    assert (Hex1 : Windowed.dataExhausted m1 = false) by (by rewrite Em1).
    rewrite (wrun_step _ _ _ Hex), Hm1. rewrite (wrun_step _ _ _ Hex1), Hm2.
    pose proof (length_dict_set_le (Windowed.nextSeqno m)
                  (Windowed.Segment (Windowed.nextSeqno m) p (now w1))
                  (Windowed.ledger m)) as Hle.
    assert (Hn2 : Windowed.nextSeqno m2 = Windowed.nextSeqno m + 1).
    { unfold m2, Windowed.send. by rewrite Em1. }
    destruct (IH m2 ws) as (Hs & He & Hr & Hm).
    + unfold m2, Windowed.send. rewrite Em1.
      cbn [Windowed.at_phase Windowed.ledger Windowed.nextSeqno].
      unfold Windowed.admitMore.
      replace (_ <? window)%nat with true; [reflexivity|].
      symmetry. apply Nat.ltb_lt. lia.
    + unfold m2, Windowed.send. by rewrite Em1.
    + unfold m2, Windowed.send. rewrite Em1.
      cbn [Windowed.ledger Windowed.nextSeqno]. lia.
    + intros i Hi. rewrite Hn2.
      replace (Windowed.nextSeqno m + 1 + i)
        with (Windowed.nextSeqno m + (i + 1)) by lia.
      apply Hdata. lia.
    + rewrite Hn2, <- Hend. f_equal. lia.
    + simpl in Hlen. lia.
    + rewrite Hs, He, Hr, Hm, Hn2. unfold m2, Windowed.send. rewrite Em1.
      cbn [Windowed.sends Windowed.nextSeqno Windowed.matches
           Windowed.retransmissions Windowed.frames].
      rewrite Hp. cbn [rev]. rewrite <- app_assoc. auto.
Qed.

End BurstRefines.

(** ** The simple clients as special cases of the windowed machine *)

Lemma sim_finished_ledger s m :
  Refinement.sim s m -> Saw.have_more_data s = false ->
  Windowed.ledger m = [].
Proof.
  intros (_ & _ & _ & _ & [H|[H|[H|H]]]) Hmore.
  - destruct H as (_ & Ht & _). congruence.
  - by destruct H as (_ & _ & _ & ->).
  - destruct H as (_ & Ht & _). congruence.
  - destruct H as (_ & Ht & _). congruence.
Qed.

(** C10, as the code has it.  On a script in which every wait is answered
    with the ACK for the packet just sent, the stop-and-wait client and the
    windowed machine with window 1 run in step: they send the same
    datagrams in the same order, the machine never retransmits, and when
    the client finishes the machine has finished with an empty ledger
    (unless the sequence number leaves the range of 32 bits, where
    [struct.pack] fails).  The burst client, run with a burst size [n]
    other than 0 and a gap [t] for which [time.sleep] returns, finishes on
    a data source of [count] chunks ([count] at most 2^32) and has then
    sent exactly the datagrams the windowed machine with a window above
    [count] originates in its first [2 * count + 1] steps.  In the
    run with 3 chunks and matching ACKs the stop-and-wait client sends 3
    packets, logs 3 ACKs each equal to the number sent, sends no packet
    twice and finishes; the machine with window 1 sends the same 3 packets
    with 3 matches, no retransmission and an empty ledger. *)
Theorem C10_clean_runs :
  (forall wait_for_data t0 ws,
     Refinement.clean wait_for_data ws (Saw.init t0) ->
     match Saw.main wait_for_data t0 ws with
     | Saw.Finished s =>
         exists m,
           Windowed.run wait_for_data Saw.magic 1 ws Windowed.init
             = Windowed.Finished m /\
           Windowed.sends m = Saw.sent s /\
           Windowed.retransmissions m = 0%nat /\
           Windowed.ledger m = []
     | Saw.Running s =>
         exists m,
           Windowed.run wait_for_data Saw.magic 1 ws Windowed.init
             = Windowed.Running m /\
           Windowed.sends m = Saw.sent s /\
           Windowed.retransmissions m = 0%nat
     | Saw.Crashed e s => e = StructError /\ 2 ^ 32 <= Saw.seqno s
     | Saw.Blocked _ => False
     end) /\
  (forall wait_for_data n t sleep t0 window count ws1 ws2,
     Refinement.has_chunks wait_for_data count ->
     Z.of_nat count <= 2 ^ 32 ->
     n <> 0 ->
     sleep t = None ->
     (count < window)%nat ->
     (3 * count + 1 <= length ws1)%nat ->
     length ws2 = (2 * count + 1)%nat ->
     exists s,
       Burst.main wait_for_data n t sleep t0 ws1 = Burst.Finished s /\
       Windowed.sends
         (Windowed.final
            (Windowed.run wait_for_data Burst.magic window ws2 Windowed.init))
         = Burst.sent s /\
       Windowed.dataExhausted
         (Windowed.final
            (Windowed.run wait_for_data Burst.magic window ws2 Windowed.init))
         = true /\
       Windowed.retransmissions
         (Windowed.final
            (Windowed.run wait_for_data Burst.magic window ws2 Windowed.init))
         = 0%nat) /\
  (Refinement.clean (Scenario.chunks 3) Scenario.script_clean (Saw.init 100) /\
   exists s m,
     Saw.main (Scenario.chunks 3) 100 Scenario.script_clean = Saw.Finished s /\
     length (Saw.sent s) = 3%nat /\
     NoDup (Saw.sent s) /\
     map (fun r => (r_seqno r, r_ackno r)) (rev (Saw.traced s))
       = [(0, 0); (1, 1); (2, 2)] /\
     Windowed.run (Scenario.chunks 3) Saw.magic 1 Scenario.script_clean
       Windowed.init = Windowed.Finished m /\
     Windowed.sends m = Saw.sent s /\
     Windowed.matches m = 3%nat /\
     Windowed.retransmissions m = 0%nat /\
     Windowed.ledger m = []).
Proof.
  split; [|split].
  - intros wait_for_data t0 ws Hclean.
    pose proof (sim_run wait_for_data ws _ _ (sim_init t0) Hclean) as H.
    unfold Saw.main.
    destruct (Saw.main_loop wait_for_data ws (Saw.init t0)) as [s|e s|s|s];
      try exact H.
    + destruct H as (m & Hrun & Hsim & Hmore). exists m.
      split; [exact Hrun|].
      pose proof (sim_finished_ledger _ _ Hsim Hmore) as Hl.
      destruct Hsim as (Hs & Hr & _). auto.
    + destruct H as (m & Hrun & Hsim). exists m.
      destruct Hsim as (Hs & Hr & _). auto.
  - intros wait_for_data n t sleep t0 window count ws1 ws2
      [Hdata Hend] Hmax Hn Hsl Hroom Hlen1 Hlen2.
    destruct (burst_sends wait_for_data n t sleep count (Burst.init t0) ws1)
      as (s & Hrun & Hsent); simpl; auto; try lia.
    destruct (windowed_sends wait_for_data window count Windowed.init ws2)
      as (Hs & He & Hr & _); simpl; auto.
    exists s. split; [exact Hrun|].
    rewrite Hs, He, Hr, Hsent. simpl. auto.
  - split.
    + simpl. unfold Refinement.matched. simpl.
      repeat split; try discriminate; intros _; eexists _, _;
        (split; [reflexivity|]); vm_compute; reflexivity.
    + eexists _, _. split; [vm_compute; reflexivity|].
      split; [reflexivity|]. split.
      * repeat (apply NoDup_cons; split;
                [rewrite ?elem_of_cons, elem_of_nil; intros H;
                 repeat (destruct H as [H|H]; [discriminate|]); exact H|]).
        apply NoDup_nil_2.
      * repeat split; vm_compute; reflexivity.
Qed.

(** C10, counterexample.  Sent an ACK for 7 after packet 0, the
    stop-and-wait client goes on and sends packet 1, while the windowed
    machine with window 1 on the same script keeps waiting for ACK 0 and
    resends packet 0.  With no datagram arriving at all, the burst client
    sends its single packet once and finishes, while the windowed machine
    with window 1000 waits for the ACK and sends the packet a second
    time. *)
Lemma C10_counterexample :
  (exists s m,
     Saw.main (Scenario.chunks 3) 100 Scenario.script_wrong_ack
       = Saw.Running s /\
     Windowed.run (Scenario.chunks 3) Saw.magic 1 Scenario.script_wrong_ack
       Windowed.init = Windowed.Running m /\
     Windowed.retransmissions m = 1%nat /\
     hd_error (Saw.sent s) = Some (be32 Saw.magic ++ be32 1 ++ [Byte.x61]) /\
     hd_error (Windowed.sends m) = Some (be32 Saw.magic ++ be32 0 ++ [Byte.x61]) /\
     Windowed.sends m <> Saw.sent s) /\
  (exists s m,
     Burst.main (Scenario.chunks 1) 50 0.125 Scenario.sleep 100 Scenario.script_silence
       = Burst.Finished s /\
     Windowed.run (Scenario.chunks 1) Burst.magic 1000 Scenario.script_silence
       Windowed.init = Windowed.Running m /\
     Windowed.retransmissions m = 1%nat /\
     length (Burst.sent s) = 1%nat /\
     length (Windowed.sends m) = 2%nat /\
     Windowed.sends m <> Burst.sent s).
Proof.
  split.
  - eexists _, _. split; [vm_compute; reflexivity|].
    split; [vm_compute; reflexivity|].
    split; [reflexivity|]. split; [reflexivity|]. split; [reflexivity|].
    discriminate.
  - eexists _, _. split; [vm_compute; reflexivity|].
    split; [vm_compute; reflexivity|].
    split; [reflexivity|]. split; [reflexivity|]. split; [reflexivity|].
    discriminate.
Qed.

(** The burst client with bursts of 2 and three chunks: it sleeps before
    packets 0 and 2, sends the three packets and finishes; the windowed
    machine with window 5 has sent the same three after 7 steps. *)
Example burst_three_chunks :
  exists s,
    Burst.main (Scenario.chunks 3) 2 0.125 Scenario.sleep 100 Scenario.script_ticks
      = Burst.Finished s /\
    length (Burst.slept s) = 2%nat /\
    map r_seqno (rev (Burst.traced s)) = [0; 1; 2] /\
    Windowed.sends
      (Windowed.final
         (Windowed.run (Scenario.chunks 3) Burst.magic 5
            (take 7 Scenario.script_ticks) Windowed.init))
      = Burst.sent s.
Proof.
  eexists. split; [vm_compute; reflexivity|].
  repeat split; vm_compute; reflexivity.
Qed.

(** * Further properties of the code *)

(** ** The packet header: [struct.pack] and [struct.unpack] *)

Section Codec.

Lemma Z_of_byte_of_Z x : Z_of_byte (byte_of_Z x) = x mod 256.
Proof.
  unfold Z_of_byte, byte_of_Z.
  assert (Hb : 0 <= x mod 256 < 256) by (apply Z.mod_pos_bound; lia).
  destruct (Byte.of_N (Z.to_N (x mod 256))) as [b|] eqn:E.
  - apply Byte.to_of_N in E. rewrite E. lia.
  - pose proof (Byte.to_of_N_option_map (Z.to_N (x mod 256))) as H.
    rewrite E in H. simpl in H.
    destruct (N.leb_spec (Z.to_N (x mod 256)) 255); [discriminate|lia].
Qed.

Lemma testbit_byte x k n :
  0 <= k -> 0 <= n ->
  Z.testbit (Z.shiftl ((Z.shiftr x k) mod 256) k) n
  = (k <=? n) && (n <? k + 8) && Z.testbit x n.
Proof.
  intros Hk Hn. change 256 with (2 ^ 8).
  destruct (Z.leb_spec k n) as [Hle|Hlt]; simpl.
  - rewrite Z.shiftl_spec by lia.
    destruct (Z.ltb_spec n (k + 8)) as [Hin|Hout]; simpl.
    + rewrite Z.mod_pow2_bits_low by lia.
      rewrite Z.shiftr_spec by lia. f_equal. lia.
    + apply Z.mod_pow2_bits_high. lia.
  - apply Z.shiftl_spec_low. lia.
Qed.

Lemma of_be32_be32 z :
  0 <= z < 2 ^ 32 ->
  of_be32 (byte_of_Z (Z.shiftr z 24)) (byte_of_Z (Z.shiftr z 16))
    (byte_of_Z (Z.shiftr z 8)) (byte_of_Z z) = z.
Proof.
  intros Hz. unfold of_be32. rewrite !Z_of_byte_of_Z.
  apply Z.bits_inj'. intros n Hn.
  rewrite !Z.lor_spec.
  rewrite !testbit_byte by lia.
  replace (Z.testbit (z mod 256) n) with ((n <? 8) && Z.testbit z n).
  2:{ change 256 with (2 ^ 8).
      destruct (Z.ltb_spec n 8); simpl.
      - by rewrite Z.mod_pow2_bits_low by lia.
      - symmetry. apply Z.mod_pow2_bits_high. lia. }
  destruct (Z.ltb_spec n 32) as [Hlow|Hhigh].
  - destruct (Z.leb_spec 24 n), (Z.ltb_spec n (24 + 8)),
             (Z.leb_spec 16 n), (Z.ltb_spec n (16 + 8)),
             (Z.leb_spec 8 n), (Z.ltb_spec n (8 + 8)),
             (Z.ltb_spec n 8); simpl;
      try lia; by rewrite ?orb_false_r.
  - assert (Hf : Z.testbit z n = false).
    { rewrite <- (Z.mod_small z (2 ^ 32)) by lia.
      apply Z.mod_pow2_bits_high. lia. }
    rewrite Hf. by rewrite !andb_false_r.
Qed.

(** X1: a header made by [struct.pack(">II", a, b)] is 8 bytes long and
    [struct.unpack(">II", ...)] gives [a] and [b] back. *)
Theorem pack_unpack_roundtrip a b hdr :
  pack_II a b = Ok hdr ->
  length hdr = 8%nat /\ unpack_II hdr = Ok (a, b).
Proof.
  unfold pack_II, u32_ok.
  destruct (Z.leb_spec 0 a), (Z.ltb_spec a (2 ^ 32)),
           (Z.leb_spec 0 b), (Z.ltb_spec b (2 ^ 32)); simpl; try discriminate.
  intros [= <-]. split; [reflexivity|].
  unfold be32. simpl. by rewrite !of_be32_be32 by lia.
Qed.


End Codec.

(** X1, witness: the header of packet 5. *)
Lemma pack_unpack_roundtrip_witness :
  length (be32 Tahoe.magic ++ be32 5) = 8%nat /\
  unpack_II (be32 Tahoe.magic ++ be32 5) = Ok (Tahoe.magic, 5).
Proof.
  apply (pack_unpack_roundtrip Tahoe.magic 5 (be32 Tahoe.magic ++ be32 5)).
  reflexivity.
Defined.

(** ** [client_tahoe.py]: what the loop keeps *)

Section AscendingFacts.
Import Further.

Lemma ascending_snoc l k :
  ascending l -> (forall x, x ∈ l -> x < k) -> ascending (l ++ [k]).
Proof.
  induction l as [|a l IH]; simpl; intros Hl Hk.
  - split; [|done]. intros x Hx. by apply elem_of_nil in Hx.
  - destruct Hl as [Ha Hl]. split.
    + intros x [Hx| ->%list_elem_of_singleton]%elem_of_app; [by apply Ha|].
      apply Hk. apply elem_of_cons. by left.
    + apply IH; [done|]. intros x Hx. apply Hk. apply elem_of_cons. by right.
Qed.

Lemma ascending_dict_del {V} a (d : dict V) :
  ascending (keys d) -> ascending (keys (dict_del a d)).
Proof.
  induction d as [|[k v] d IH]; simpl; [done|]. intros [Hk Hd].
  destruct (k =? a); [done|]. simpl. split; [|auto].
  intros x Hx. apply Hk. eapply keys_dict_del_subset; eauto.
Qed.

Lemma ascending_first {V} (d : dict V) x k :
  ascending (keys d) -> k ∈ keys d -> dict_first d x <= k.
Proof.
  destruct d as [|[k0 v] d]; simpl.
  - intros _ Hk. by apply elem_of_nil in Hk.
  - intros [Hmin _] [->|Hk]%elem_of_cons; [lia|].
    apply Hmin in Hk. lia.
Qed.

Lemma keys_dict_del_iff {V} a (d : dict V) k :
  NoDup (keys d) ->
  k ∈ keys (dict_del a d) <-> k ∈ keys d /\ k <> a.
Proof.
  induction d as [|[k0 v] d IH]; simpl.
  - intros _. split; [intros H; by apply elem_of_nil in H | by intros [H _]].
  - rewrite NoDup_cons. intros [Hk0 Hd].
    destruct (Z.eqb_spec k0 a) as [->|Hne]; simpl; rewrite !elem_of_cons.
    + split.
      * intros Hk. split; [by right|]. intros ->. done.
      * intros [[->|Hk] Hka]; done.
    + rewrite IH by done. split.
      * intros [->|[Hk Hka]]; auto.
      * intros [[->|Hk] Hka]; auto.
Qed.

End AscendingFacts.

Section TahoeFurther.
Import Tahoe Further.
Variable wait_for_data : Z -> option bytes.
Local Abbreviation reachable := (reachable wait_for_data).
Local Abbreviation iteration := (iteration wait_for_data).
Local Abbreviation tahoe_inv := (tahoe_inv wait_for_data).

Lemma ti_init n t t0 : tahoe_inv (init n t t0).
Proof.
  split; simpl; auto; try done; try lia.
  - intros k. rewrite lookup_empty. split; [by intros [? ?]|lia].
  - intros pkt H. by apply elem_of_nil in H.
  - intros k pkt H. by apply elem_of_nil in H.
Qed.

Lemma ti_state0 s :
  tahoe_inv s -> Tahoe.state s = 0 -> tahoe_inv (state0 wait_for_data s).
Proof.
  intros [] Hst. split; simpl; auto.
  - destruct (wait_for_data (seqno s)); auto.
  - destruct (wait_for_data (seqno s)) eqn:E; [|discriminate].
    intros _. split; [done|discriminate].
  - destruct (wait_for_data (seqno s)) eqn:E; [|done].
    intros H. apply ti_done0 in H. congruence.
Qed.

Lemma ti_state1 w s s' :
  inv s -> tahoe_inv s -> Tahoe.state s = 1 -> state1 w s = Ok s' ->
  tahoe_inv s'.
Proof.
  intros Hinv Hti Hst.
  pose proof (inv_fresh_seqno s Hinv) as Hfresh.
  destruct Hti. destruct (ti_body0 Hst) as [Hb Hbn].
  unfold state1, bind.
  destruct (pack_II magic (seqno s)) as [hdr|] eqn:Hp; [|discriminate].
  destruct (body s) as [b|] eqn:Eb; [|done].
  intros [= <-]. split; simpl.
  - destruct (window_full _ _); auto.
  - destruct (window_full _ _); discriminate.
  - lia.
  - rewrite keys_dict_set_new by done. apply ascending_snoc; [done|].
    intros x Hx. apply (inv_sent _ Hinv), (inv_below _ Hinv) in Hx. lia.
  - intros k. destruct (decide (seqno s = k)) as [<-|Hne].
    + rewrite lookup_insert_eq. split; [lia|eauto].
    + rewrite lookup_insert_ne by done. rewrite ti_times0. lia.
  - intros pkt [->|Hin]%elem_of_cons.
    + exists (seqno s). split; [lia|]. exists hdr, b. auto.
    + destruct (ti_sent0 _ Hin) as (k & Hk & Hf). exists k. split; [lia|done].
  - intros k pkt [[= -> ->]|Hin]%elem_dict_set.
    + exists hdr, b. auto.
    + by apply ti_ledger0.
  - intros Hm. apply ti_done0 in Hm. congruence.
Qed.

Lemma ti_on_timeout s :
  tahoe_inv s -> tahoe_inv (on_timeout s).
Proof. intros []. split; simpl; auto. discriminate. Qed.

Lemma ti_on_ack w ack s s' :
  tahoe_inv s -> on_ack w ack s = Ok s' -> tahoe_inv s'.
Proof.
  intros Hti H.
  destruct (on_ack_cases _ _ _ _ H)
    as (m & ackno & t0 & Hu & Ht0 & Hst & Hsq & Hss & Hout & Hcase).
  assert (Hsame : sent s' = sent s /\ have_more_data s' = have_more_data s).
  { revert H. unfold on_ack, bind. rewrite Hu. simpl. rewrite Ht0.
    destruct (_ =? _).
    - destruct (grow s); [|discriminate]. by intros [= <-].
    - by intros [= <-]. }
  destruct Hsame as [Hsent Hmore]. destruct Hti.
  split.
  - destruct Hcase as [(_ & _ & -> & _)|(_ & _ & _ & ->)]; auto.
    destruct (window_full _ _); auto.
  - destruct Hcase as [(_ & _ & -> & _)|(_ & _ & _ & ->)]; [discriminate|].
    destruct (window_full _ _); discriminate.
  - by rewrite Hsq.
  - rewrite Hout. destruct (dict_mem _ _); [|done].
    by apply ascending_dict_del.
  - intros k. by rewrite Hst, Hsq.
  - rewrite Hsent, Hsq. done.
  - intros k pkt. rewrite Hout. destruct (dict_mem _ _); [|by apply ti_ledger0].
    intros Hin%elem_dict_del. by apply ti_ledger0.
  - rewrite Hmore, Hsq. done.
Qed.

Lemma ti_state3 w s s' :
  inv s -> tahoe_inv s -> state3 w s = Ok s' -> tahoe_inv s'.
Proof.
  intros Hinv Hti. unfold state3.
  destruct (dict_get (desired_ackno s) (outstanding s)) as [pkt|] eqn:E;
    [|discriminate].
  pose proof (dict_get_Some_keys _ _ _ E) as Hin.
  pose proof (dict_get_Some_elem _ _ _ E) as Hel.
  destruct Hti.
  assert (Hrange : 0 <= desired_ackno s < seqno s).
  { apply ti_times0. by apply (inv_sent _ Hinv). }
  intros [= <-]. split; simpl; auto.
  - discriminate.
  - intros k. destruct (decide (desired_ackno s = k)) as [<-|Hne].
    + rewrite lookup_insert_eq. split; [done|eauto].
    + rewrite lookup_insert_ne by done. apply ti_times0.
  - intros p [->|Hp]%elem_of_cons; [|by apply ti_sent0].
    exists (desired_ackno s). split; [done|]. by apply ti_ledger0.
Qed.

Lemma ti_iteration w s s' :
  inv s -> tahoe_inv s -> iteration w s = Some (Ok s') -> tahoe_inv s'.
Proof.
  intros Hinv Hti. unfold Tahoe.iteration.
  destruct (Z.eqb_spec (Tahoe.state s) 0) as [E0|_].
  { intros [= <-]. by apply ti_state0. }
  destruct (Z.eqb_spec (Tahoe.state s) 1) as [E1|_].
  { intros [= H]. eapply ti_state1; eauto. }
  destruct (Z.eqb_spec (Tahoe.state s) 2) as [E2|_].
  { unfold state2. destruct (recvfrom w).
    - intros [= H]. eapply ti_on_ack; eauto.
    - intros [= <-]. by apply ti_on_timeout. }
  destruct (Z.eqb_spec (Tahoe.state s) 3) as [E3|_]; [|discriminate].
  intros [= H]. eapply ti_state3; eauto.
Qed.

Lemma reachable_tahoe_inv n t t0 s : reachable n t t0 s -> tahoe_inv s.
Proof.
  induction 1 as [|s w s' Hr IH Hl Hstep].
  - apply ti_init.
  - eapply ti_iteration; eauto. eapply reachable_inv; eauto.
Qed.

End TahoeFurther.

Section TahoeFurtherFacts.
Import Tahoe Further.
Variable wait_for_data : Z -> option bytes.
Local Abbreviation reachable := (reachable wait_for_data).
Local Abbreviation iteration := (iteration wait_for_data).
Local Abbreviation main := (main wait_for_data).
Local Abbreviation main_loop := (main_loop wait_for_data).

(** X2: the ledger holds its sequence numbers in increasing order, each one
    between [desired_ackno] (the smallest, when the ledger is not empty) and
    [seqno] (not included); [desired_ackno] never exceeds [seqno]. *)
Theorem ledger_ordered n t t0 s :
  reachable n t t0 s ->
  ascending (keys (outstanding s)) /\
  (forall k, k ∈ keys (outstanding s) -> desired_ackno s <= k < seqno s) /\
  desired_ackno s <= seqno s.
Proof.
  intros Hr.
  pose proof (reachable_inv _ _ _ _ _ Hr) as Hinv.
  pose proof (reachable_tahoe_inv _ _ _ _ _ Hr) as Hti.
  split; [apply Hti|].
  assert (Hk : forall k, k ∈ keys (outstanding s) ->
                         desired_ackno s <= k < seqno s).
  { intros k Hk. split.
    - rewrite (inv_desired _ Hinv). apply ascending_first; [apply Hti|done].
    - by apply (inv_below _ Hinv), (inv_sent _ Hinv). }
  split; [exact Hk|].
  destruct (decide (outstanding s = [])) as [E|Hne].
  - rewrite (inv_desired _ Hinv), E. simpl. lia.
  - pose proof (dict_first_in (seqno s) _ Hne) as Hin.
    apply Hk in Hin. rewrite (inv_desired _ Hinv) at 1. lia.
Qed.

(** X3: [send_times] is never pruned: it has an entry for every sequence
    number originated so far, 0 to [seqno - 1], and for no other number. *)
Theorem send_times_domain n t t0 s k :
  reachable n t t0 s ->
  is_Some (send_times s !! k) <-> 0 <= k < seqno s.
Proof.
  intros Hr. apply (reachable_tahoe_inv _ _ _ _ _ Hr).
Qed.

(** X6: every datagram handed to [sendto], a first transmission or a
    retransmission, is the packet of a sequence number originated so far:
    the header for that number followed by the payload the data source gave
    for it. *)
Theorem sent_are_frames n t t0 s pkt :
  reachable n t t0 s ->
  pkt ∈ sent s ->
  exists k, 0 <= k < seqno s /\ is_frame wait_for_data magic k pkt.
Proof.
  intros Hr. apply (reachable_tahoe_inv _ _ _ _ _ Hr).
Qed.

Lemma iteration_never_breaks n t t0 s w :
  reachable n t t0 s -> iteration w s <> None.
Proof.
  intros Hr. pose proof (ti_state _ _ (reachable_tahoe_inv _ _ _ _ _ Hr)) as H.
  unfold Tahoe.iteration.
  destruct H as [-> | [-> | [-> | ->]]]; simpl; discriminate.
Qed.

Lemma main_loop_finished n t t0 ws : forall s s',
  reachable n t t0 s ->
  main_loop ws s = Finished s' ->
  reachable n t t0 s' /\ loop_cond s' = false.
Proof.
  induction ws as [|w ws IH]; intros s s' Hr; simpl.
  - destruct (loop_cond s) eqn:Hl; [discriminate|]. by intros [= <-].
  - destruct (loop_cond s) eqn:Hl; [|by intros [= <-]].
    pose proof (iteration_never_breaks _ _ _ _ w Hr) as Hnb.
    destruct (iteration w s) as [[s1|e]|] eqn:Hi; try done.
    apply IH. eapply reach_step; eauto.
Qed.

(** X4: the loop is only left through its condition, never through the
    [break] of the last [else]: when the client finishes, the data source
    has answered end of data for [seqno] and nothing is outstanding. *)
Theorem finished_means_done n t t0 ws s :
  main n t t0 ws = Finished s ->
  have_more_data s = false /\
  outstanding s = [] /\
  wait_for_data (seqno s) = None.
Proof.
  intros H.
  destruct (main_loop_finished n t t0 ws _ _ (reach_init _ _ _ _) H)
    as [Hr Hl].
  unfold loop_cond in Hl. apply orb_false_iff in Hl as [Hm Ho].
  split; [exact Hm|]. split.
  - destruct (outstanding s); [done|]. simpl in Ho.
    apply Z.ltb_ge in Ho. lia.
  - by apply (reachable_tahoe_inv _ _ _ _ _ Hr).
Qed.




(** X7: an ACK that is processed removes its own number from the ledger
    and no other: the ledger afterwards holds exactly the numbers it held
    before, without the acknowledged one. *)
Theorem ack_removes_its_number n t t0 s w ack s' m a k :
  reachable n t t0 s ->
  unpack_II ack = Ok (m, a) ->
  on_ack w ack s = Ok s' ->
  k ∈ keys (outstanding s') <-> k ∈ keys (outstanding s) /\ k <> a.
Proof.
  intros Hr Hu H.
  pose proof (reachable_inv _ _ _ _ _ Hr) as Hinv.
  destruct (on_ack_cases _ _ _ _ H)
    as (m' & a' & t1 & Hu' & _ & _ & _ & _ & -> & _).
  rewrite Hu in Hu'. injection Hu' as <- <-.
  destruct (dict_mem a (outstanding s)) eqn:Hm.
  - apply keys_dict_del_iff, Hinv.
  - apply dict_mem_false in Hm. split; [|tauto].
    intros Hk. split; [done|]. intros ->. done.
Qed.

(** X8: sequence numbers never go backwards: an iteration leaves [seqno]
    as it is or adds one, and never lowers [desired_ackno]. *)
Theorem numbers_never_decrease n t t0 s w s' :
  reachable n t t0 s ->
  loop_cond s = true ->
  iteration w s = Some (Ok s') ->
  seqno s <= seqno s' <= seqno s + 1 /\
  desired_ackno s <= desired_ackno s'.
Proof.
  intros Hr Hl.
  destruct (ledger_ordered n t t0 s Hr) as (_ & Hkeys & Hds).
  unfold Tahoe.iteration.
  destruct (Z.eqb_spec (Tahoe.state s) 0) as [E0|_].
  { intros [= <-]. simpl. lia. }
  destruct (Z.eqb_spec (Tahoe.state s) 1) as [E1|_].
  { unfold state1, bind.
    destruct (pack_II magic (seqno s)); [|discriminate].
    destruct (body s); [|discriminate].
    intros [= <-]. simpl. lia. }
  destruct (Z.eqb_spec (Tahoe.state s) 2) as [E2|_].
  { unfold state2. destruct (recvfrom w); [|intros [= <-]; simpl; lia].
    intros [= H].
    destruct (on_ack_cases _ _ _ _ H)
      as (m & a & t1 & _ & _ & _ & Hsq & _ & Hout & Hcase).
    split; [lia|].
    destruct Hcase as [(_ & _ & _ & ->)|(_ & _ & -> & _)]; [|lia].
    destruct (decide (outstanding s' = [])) as [E|Hne].
    { rewrite E. simpl. lia. }
    pose proof (dict_first_in (seqno s) _ Hne) as Hin.
    apply Hkeys. revert Hin. generalize (dict_first (outstanding s') (seqno s)).
    intros k. rewrite Hout. destruct (dict_mem a (outstanding s)); [|done].
    apply keys_dict_del_subset. }
  destruct (Z.eqb_spec (Tahoe.state s) 3) as [E3|_]; [|discriminate].
  unfold state3.
  destruct (dict_get (desired_ackno s) (outstanding s)); [|discriminate].
  intros [= <-]. simpl. lia.
Qed.

(** X9: two timeouts in a row, with the resend of state 3 between them and
    no ACK, leave cwnd at 1 and ssthresh at 0, and the stored timeout
    doubled twice; the ledger and [desired_ackno] are as before. *)
Theorem two_timeouts_in_a_row n t t0 s w1 w2 w3 :
  reachable n t t0 s ->
  loop_cond s = true ->
  Tahoe.state s = 2 ->
  recvfrom w1 = None ->
  recvfrom w3 = None ->
  exists s1 s2 s3,
    iteration w1 s = Some (Ok s1) /\
    iteration w2 s1 = Some (Ok s2) /\
    iteration w3 s2 = Some (Ok s3) /\
    cwnd s3 = 1%Q /\
    ssthresh s3 = 0 /\
    timeout s3 = (timeout s * 2 * 2)%float /\
    outstanding s3 = outstanding s /\
    desired_ackno s3 = desired_ackno s /\
    Tahoe.state s3 = 3.
Proof.
  intros Hr Hl Hst Hw1 Hw3.
  assert (H1 : iteration w1 s = Some (Ok (on_timeout s))).
  { unfold Tahoe.iteration, state2. by rewrite Hst, Hw1. }
  assert (Hr1 : reachable n t t0 (on_timeout s)).
  { eapply reach_step; eauto. }
  destruct (state3_resends wait_for_data n t t0 (on_timeout s) w2 Hr1)
    as (pkt & s2 & Hg & _ & H2 & _ & _ & Ho & _ & Hs2 & _); auto.
  assert (E2 : s2.(cwnd) = 1%Q /\ timeout s2 = (timeout s * 2)%float /\
               desired_ackno s2 = desired_ackno s).
  { simpl in Hg. revert H2. unfold Tahoe.iteration, state3. simpl.
    rewrite Hg. by intros [= <-]. }
  destruct E2 as (Hc2 & Ht2 & Hd2).
  exists (on_timeout s), s2, (on_timeout s2).
  split; [exact H1|]. split; [exact H2|]. split.
  { unfold Tahoe.iteration, state2. by rewrite Hs2, Hw3. }
  simpl. rewrite Hc2, Ht2, Ho, Hd2. repeat split.
Qed.

End TahoeFurtherFacts.

(** X2, witness: 1 and 2 outstanding, 3 next. *)
Lemma ledger_ordered_witness :
  Further.ascending (keys (Tahoe.outstanding Scenario.two_in_flight)) /\
  (forall k, k ∈ keys (Tahoe.outstanding Scenario.two_in_flight) ->
     Tahoe.desired_ackno Scenario.two_in_flight <= k
     < Tahoe.seqno Scenario.two_in_flight) /\
  Tahoe.desired_ackno Scenario.two_in_flight
  <= Tahoe.seqno Scenario.two_in_flight.
Proof.
  apply (ledger_ordered (Scenario.chunks 4) 8 0.5 100 Scenario.two_in_flight).
  exact two_in_flight_reachable.
Defined.

(** X3, witness: the send time of packet 0 is still recorded after its
    ACK. *)
Lemma send_times_domain_witness :
  is_Some (Tahoe.send_times Scenario.two_in_flight !! 0)
  <-> 0 <= 0 < Tahoe.seqno Scenario.two_in_flight.
Proof.
  apply (send_times_domain (Scenario.chunks 4) 8 0.5 100
           Scenario.two_in_flight 0).
  exact two_in_flight_reachable.
Defined.

(** X4, witness: the session of four chunks with no loss. *)
Lemma finished_means_done_witness :
  Tahoe.have_more_data (Tahoe.final Scenario.session) = false /\
  Tahoe.outstanding (Tahoe.final Scenario.session) = [] /\
  Scenario.chunks 4 (Tahoe.seqno (Tahoe.final Scenario.session)) = None.
Proof.
  apply (finished_means_done (Scenario.chunks 4) 8 0.5 100
           Scenario.script_session (Tahoe.final Scenario.session)).
  vm_compute. reflexivity.
Defined.



(** X6, witness: packet 0 among the datagrams sent. *)
Lemma sent_are_frames_witness :
  exists k,
    0 <= k < Tahoe.seqno Scenario.two_in_flight /\
    Further.is_frame (Scenario.chunks 4) Tahoe.magic k
      (be32 Tahoe.magic ++ be32 0 ++ [Byte.x61]).
Proof.
  apply (sent_are_frames (Scenario.chunks 4) 8 0.5 100 Scenario.two_in_flight
           (be32 Tahoe.magic ++ be32 0 ++ [Byte.x61])).
  - exact two_in_flight_reachable.
  - apply list_elem_of_In. vm_compute. right. right. left. reflexivity.
Defined.

(** X7, witness: the ACK for 2 while 1 and 2 are outstanding leaves 1. *)
Lemma ack_removes_its_number_witness :
  1 ∈ keys (Tahoe.outstanding
              (Tahoe.final
                 (Tahoe.main_loop (Scenario.chunks 4) [Scenario.ack 103.5 2]
                    Scenario.two_in_flight)))
  <-> 1 ∈ keys (Tahoe.outstanding Scenario.two_in_flight) /\ 1 <> 2.
Proof.
  apply (ack_removes_its_number (Scenario.chunks 4) 8 0.5 100
           Scenario.two_in_flight (Scenario.ack 103.5 2) (Scenario.ackp 2)
           _ 0xBAADCAFE 2 1).
  - exact two_in_flight_reachable.
  - vm_compute. reflexivity.
  - vm_compute. reflexivity.
Defined.

(** X8, witness: the ACK for 1 moves [desired_ackno] from 1 to 2. *)
Lemma numbers_never_decrease_witness :
  Tahoe.seqno Scenario.two_in_flight
  <= Tahoe.seqno Scenario.after_ack_one
  <= Tahoe.seqno Scenario.two_in_flight + 1 /\
  Tahoe.desired_ackno Scenario.two_in_flight
  <= Tahoe.desired_ackno Scenario.after_ack_one.
Proof.
  apply (numbers_never_decrease (Scenario.chunks 4) 8 0.5 100
           Scenario.two_in_flight (Scenario.ack 103.5 1)
           Scenario.after_ack_one).
  - exact two_in_flight_reachable.
  - vm_compute. reflexivity.
  - vm_compute. reflexivity.
Defined.

(** X9, witness: no ACK for packet 0 arrives, twice. *)
Lemma two_timeouts_in_a_row_witness :
  exists s1 s2 s3,
    Tahoe.iteration (Scenario.chunks 4) (Scenario.tick 102) Scenario.first_send
      = Some (Ok s1) /\
    Tahoe.iteration (Scenario.chunks 4) (Scenario.tick 102.5) s1
      = Some (Ok s2) /\
    Tahoe.iteration (Scenario.chunks 4) (Scenario.tick 104) s2
      = Some (Ok s3) /\
    Tahoe.cwnd s3 = 1%Q /\
    Tahoe.ssthresh s3 = 0 /\
    Tahoe.timeout s3 = (Tahoe.timeout Scenario.first_send * 2 * 2)%float /\
    Tahoe.outstanding s3 = Tahoe.outstanding Scenario.first_send /\
    Tahoe.desired_ackno s3 = Tahoe.desired_ackno Scenario.first_send /\
    Tahoe.state s3 = 3.
Proof.
  apply (two_timeouts_in_a_row (Scenario.chunks 4) 8 0.5 100
           Scenario.first_send (Scenario.tick 102) (Scenario.tick 102.5)
           (Scenario.tick 104)).
  - exact first_send_reachable.
  - vm_compute. reflexivity.
  - vm_compute. reflexivity.
  - reflexivity.
  - reflexivity.
Defined.

(** ** [client_saw.py] and [client_burst1.py]: what the loops keep *)

Section FramesFacts.
Variable wait_for_data : Z -> option bytes.
Variable marker : Z.
Local Abbreviation frames := (Windowed.frames wait_for_data marker).

Lemma frames_S k c :
  frames k (S c)
  = match wait_for_data k with
    | Some q => Windowed.encodeDataPacket marker k q :: frames (k + 1) c
    | None => []
    end.
Proof. reflexivity. Qed.

Lemma frames_snoc c : forall k p,
  length (frames k c) = c ->
  wait_for_data (k + Z.of_nat c) = Some p ->
  frames k (S c)
  = frames k c ++ [Windowed.encodeDataPacket marker (k + Z.of_nat c) p].
Proof.
  induction c as [|c IH]; intros k p Hlen Hp.
  - simpl. rewrite Z.add_0_r in Hp. rewrite Hp. by rewrite Z.add_0_r.
  - rewrite (frames_S k (S c)). rewrite (frames_S k c) in Hlen |- *.
    destruct (wait_for_data k) as [q|]; [|discriminate].
    simpl in Hlen. injection Hlen as Hlen.
    replace (k + Z.of_nat (S c)) with (k + 1 + Z.of_nat c) in * by lia.
    by rewrite (IH (k + 1) p Hlen Hp).
Qed.

Lemma seqZ_snoc c : 0 <= c -> seqZ 0 (c + 1) = seqZ 0 c ++ [c].
Proof.
  intros Hc. rewrite seqZ_app by lia. f_equal.
Qed.

End FramesFacts.

Section SawFurther.
Import Further.
Variable wait_for_data : Z -> option bytes.
Local Abbreviation saw_inv := (saw_inv wait_for_data).
Local Abbreviation frames := (Windowed.frames wait_for_data Saw.magic).

Lemma si_init t0 : saw_inv (Saw.init t0).
Proof.
  split; simpl; auto; try done.
Qed.

Lemma si_iteration w s s' :
  saw_inv s -> Saw.have_more_data s = true ->
  Saw.iteration wait_for_data w s = Saw.Next s' ->
  saw_inv s'.
Proof.
  intros [] Hmore. unfold Saw.iteration, saw_sent_count in *.
  destruct (Z.eqb_spec (Saw.state s) 0) as [E0|N0].
  { intros [= <-]. rewrite E0 in *. simpl in *.
    rewrite Nat.add_0_r in *.
    unfold Saw.state0. destruct (wait_for_data (Saw.seqno s)) eqn:Hd.
    - split; unfold saw_sent_count; simpl; rewrite ?Nat.add_0_r.
      + auto.
      + intros _. split; [done|discriminate].
      + done.
      + done.
      + done.
      + done.
      + intros H. congruence.
    - split; unfold saw_sent_count; simpl; rewrite ?E0; simpl;
        rewrite ?Nat.add_0_r.
      + auto.
      + discriminate.
      + done.
      + done.
      + done.
      + done.
      + done. }
  destruct (Z.eqb_spec (Saw.state s) 1) as [E1|N1].
  { destruct (si_body0 E1) as [Hb Hbn].
    unfold Saw.state1, bind.
    destruct (pack_II Saw.magic (Saw.seqno s)) as [hdr|] eqn:Hp; [|done].
    destruct (Saw.body s) as [b|] eqn:Eb; [|done].
    intros [= <-]. rewrite E1 in *. simpl in *.
    rewrite Nat.add_0_r in *.
    assert (Hfr : frames 0 (S (Z.to_nat (Saw.seqno s)))
                  = frames 0 (Z.to_nat (Saw.seqno s)) ++ [hdr ++ b]).
    { assert (Hz : 0 + Z.of_nat (Z.to_nat (Saw.seqno s)) = Saw.seqno s)
        by lia.
      rewrite (frames_snoc wait_for_data Saw.magic _ 0 b); rewrite ?Hz.
      - by rewrite (pack_encode _ _ _ b Hp).
      - rewrite si_sent0 in si_count0. by rewrite length_rev in si_count0.
      - by symmetry. }
    split; unfold saw_sent_count; simpl; rewrite ?Nat.add_1_r.
    - auto.
    - discriminate.
    - done.
    - done.
    - rewrite Hfr, rev_app_distr. simpl. by f_equal.
    - by f_equal.
    - intros H. congruence. }
  destruct (Z.eqb_spec (Saw.state s) 2) as [E2|N2].
  { destruct (recvfrom w) as [dgram|]; [|discriminate].
    unfold Saw.on_ack, bind.
    destruct (unpack_II (take 100 dgram)) as [[m a]|]; [|done]. simpl.
    intros [= <-]. rewrite E2 in *. simpl in *.
    split; unfold saw_sent_count; simpl; rewrite ?Nat.add_0_r.
    - auto.
    - discriminate.
    - lia.
    - rewrite map_app. simpl. rewrite si_traced0. by rewrite seqZ_snoc.
    - rewrite si_sent0. do 2 f_equal. lia.
    - rewrite si_count0. lia.
    - intros H. congruence. }
  discriminate.
Qed.

Lemma si_main_loop ws : forall s,
  saw_inv s -> saw_inv (saw_final (Saw.main_loop wait_for_data ws s)).
Proof.
  induction ws as [|w ws IH]; intros s Hs; simpl.
  - by destruct (Saw.have_more_data s).
  - destruct (Saw.have_more_data s) eqn:Hmore; [|done].
    destruct (Saw.iteration wait_for_data w s) as [s'|e| |] eqn:Hi; try done.
    apply IH. eapply si_iteration; eauto.
Qed.

Lemma saw_finished ws : forall s s',
  saw_inv s ->
  Saw.main_loop wait_for_data ws s = Saw.Finished s' ->
  Saw.have_more_data s' = false.
Proof.
  induction ws as [|w ws IH]; intros s s' Hs; simpl.
  - destruct (Saw.have_more_data s) eqn:Hmore; [discriminate|].
    by intros [= <-].
  - destruct (Saw.have_more_data s) eqn:Hmore; [|by intros [= <-]].
    destruct (Saw.iteration wait_for_data w s) as [s1|e| |] eqn:Hi; try done.
    + apply IH. eapply si_iteration; eauto.
    + exfalso. revert Hi. unfold Saw.iteration.
      destruct (si_state _ _ Hs) as [-> | [-> | ->]]; simpl; try discriminate.
      * by destruct (Saw.state1 w s).
      * destruct (recvfrom w) as [dgram|]; [|discriminate].
        by destruct (Saw.on_ack w (take 100 dgram) s).
Qed.

(** X10: on every script, whatever the datagrams received contain, the
    stop-and-wait client sends the packets of 0, 1, 2, ... in that order,
    each once, with the payload the data source has for it, and writes one
    trace row for each acknowledged packet, in the same order. *)
Theorem saw_sends_in_order t0 ws :
  Saw.sent (saw_final (Saw.main wait_for_data t0 ws))
  = rev (frames 0
           (length (Saw.sent (saw_final (Saw.main wait_for_data t0 ws))))) /\
  length (Saw.sent (saw_final (Saw.main wait_for_data t0 ws)))
  = saw_sent_count (saw_final (Saw.main wait_for_data t0 ws)) /\
  map r_seqno (rev (Saw.traced (saw_final (Saw.main wait_for_data t0 ws))))
  = seqZ 0 (Saw.seqno (saw_final (Saw.main wait_for_data t0 ws))).
Proof.
  pose proof (si_main_loop ws _ (si_init t0)) as [].
  unfold Saw.main. rewrite si_count0 at 1. auto.
Qed.

(** X11: the stop-and-wait client leaves its loop only when the data source
    has answered end of data; a datagram has then been received for every
    packet it sent. *)
Theorem saw_finished_means_done t0 ws s :
  Saw.main wait_for_data t0 ws = Saw.Finished s ->
  wait_for_data (Saw.seqno s) = None /\
  length (Saw.sent s) = Z.to_nat (Saw.seqno s) /\
  length (Saw.traced s) = length (Saw.sent s).
Proof.
  intros H.
  pose proof (saw_finished ws _ _ (si_init t0) H) as Hmore.
  pose proof (si_main_loop ws _ (si_init t0)) as Hinv.
  unfold Saw.main in H. rewrite H in Hinv. simpl in Hinv. destruct Hinv.
  destruct (si_done0 Hmore) as [Hst Hd].
  assert (Hc : length (Saw.sent s) = Z.to_nat (Saw.seqno s)).
  { rewrite si_count0. unfold saw_sent_count. rewrite Hst. simpl. lia. }
  split; [done|]. split; [done|].
  rewrite Hc. rewrite <- (length_rev (Saw.traced s)).
  rewrite <- (length_map r_seqno), si_traced0, length_seqZ. done.
Qed.

End SawFurther.

(** X11, witness: the clean run of three chunks. *)
Lemma saw_finished_means_done_witness :
  Scenario.chunks 3
    (Saw.seqno
       (Further.saw_final (Saw.main (Scenario.chunks 3) 100 Scenario.script_clean)))
  = None /\
  length
    (Saw.sent
       (Further.saw_final (Saw.main (Scenario.chunks 3) 100 Scenario.script_clean)))
  = Z.to_nat
      (Saw.seqno
         (Further.saw_final
            (Saw.main (Scenario.chunks 3) 100 Scenario.script_clean))) /\
  length
    (Saw.traced
       (Further.saw_final (Saw.main (Scenario.chunks 3) 100 Scenario.script_clean)))
  = length
      (Saw.sent
         (Further.saw_final
            (Saw.main (Scenario.chunks 3) 100 Scenario.script_clean))).
Proof.
  apply (saw_finished_means_done (Scenario.chunks 3) 100 Scenario.script_clean).
  vm_compute. reflexivity.
Defined.

Section BurstFurther.
Import Further.
Variable wait_for_data : Z -> option bytes.
Variable n : Z.
Variable t : float.
Variable sleep : float -> option exn.
Local Abbreviation burst_inv := (burst_inv wait_for_data n t).
Local Abbreviation burst_starts := (burst_starts n).
Local Abbreviation frames := (Windowed.frames wait_for_data Burst.magic).
Local Abbreviation bmain := (Burst.main wait_for_data n t sleep).
Local Abbreviation bloop := (Burst.main_loop wait_for_data n t sleep).

Lemma burst_starts_snoc c :
  0 <= c ->
  burst_starts (c + 1)
  = burst_starts c ++ (if c mod n =? 0 then [c] else []).
Proof.
  intros Hc. unfold Further.burst_starts.
  rewrite seqZ_snoc by done. rewrite List.filter_app. reflexivity.
Qed.

Lemma bi_init t0 : burst_inv (Burst.init t0).
Proof.
  split; simpl; auto; try done.
Qed.

Lemma bi_iteration w s s' :
  burst_inv s -> Burst.have_more_data s = true ->
  Burst.iteration wait_for_data n t sleep w s = Some (Ok s') ->
  burst_inv s'.
Proof.
  intros [] Hmore. unfold Burst.iteration.
  destruct (Z.eqb_spec (Burst.state s) 0) as [E0|N0].
  { rewrite E0 in bi_slept0. simpl in bi_slept0.
    rewrite Z.add_0_r in bi_slept0.
    unfold Burst.state0.
    destruct (wait_for_data (Burst.seqno s)) as [b|] eqn:Hd.
    - destruct (Z.eqb_spec n 0) as [|Hn]; [discriminate|].
      intros [= <-]. split; simpl.
      + destruct (_ =? 0); auto.
      + intros _. split; [done|discriminate].
      + destruct (Z.eqb_spec (Burst.seqno s mod n) 0); [done|discriminate].
      + done.
      + done.
      + done.
      + done.
      + destruct (Z.eqb_spec (Burst.seqno s mod n) 0) as [Hm|Hm]; simpl.
        * by rewrite Z.add_0_r.
        * rewrite burst_starts_snoc by done.
          destruct (Z.eqb_spec (Burst.seqno s mod n) 0); [done|].
          by rewrite app_nil_r.
      + intros H. congruence.
    - intros [= <-]. split; simpl; rewrite ?E0; simpl.
      + auto.
      + done.
      + discriminate.
      + done.
      + done.
      + done.
      + done.
      + by rewrite Z.add_0_r.
      + done. }
  destruct (Z.eqb_spec (Burst.state s) 1) as [E1|N1].
  { rewrite E1 in bi_slept0. simpl in bi_slept0.
    rewrite Z.add_0_r in bi_slept0.
    unfold Burst.state1. destruct (sleep t); [discriminate|].
    intros [= <-]. split; simpl.
    - auto.
    - intros _. apply bi_body0. congruence.
    - discriminate.
    - done.
    - done.
    - done.
    - done.
    - rewrite burst_starts_snoc by done. rewrite (bi_burst0 E1). simpl.
      rewrite length_app. simpl. rewrite Nat.add_1_r. simpl.
      by rewrite bi_slept0.
    - intros H. congruence. }
  destruct (Z.eqb_spec (Burst.state s) 2) as [E2|N2]; [|discriminate].
  rewrite ?E2 in bi_slept0. simpl in bi_slept0.
  destruct (bi_body0 N0) as [Hb Hbn].
  unfold Burst.state2, bind.
  destruct (pack_II Burst.magic (Burst.seqno s)) as [hdr|] eqn:Hp;
    [|discriminate].
  destruct (Burst.body s) as [b|] eqn:Eb; [|done].
  intros [= <-].
  assert (Hz : 0 + Z.of_nat (Z.to_nat (Burst.seqno s)) = Burst.seqno s) by lia.
  assert (Hn1 : Z.to_nat (Burst.seqno s + 1) = S (Z.to_nat (Burst.seqno s)))
    by lia.
  assert (Hfr : frames 0 (S (Z.to_nat (Burst.seqno s)))
                = frames 0 (Z.to_nat (Burst.seqno s)) ++ [hdr ++ b]).
  { rewrite (frames_snoc wait_for_data Burst.magic _ 0 b); rewrite ?Hz.
    - by rewrite (pack_encode _ _ _ b Hp).
    - rewrite bi_sent0 in bi_count0. by rewrite length_rev in bi_count0.
    - by symmetry. }
  split; simpl.
  - auto.
  - done.
  - discriminate.
  - lia.
  - rewrite map_app. simpl. rewrite bi_traced0. by rewrite seqZ_snoc.
  - rewrite Hn1, Hfr, rev_app_distr. simpl. by f_equal.
  - rewrite Hn1. by f_equal.
  - by rewrite Z.add_0_r.
  - intros H. congruence.
Qed.

Lemma bi_main_loop ws : forall s,
  burst_inv s -> burst_inv (burst_final (bloop ws s)).
Proof.
  induction ws as [|w ws IH]; intros s Hs; simpl.
  - by destruct (Burst.have_more_data s).
  - destruct (Burst.have_more_data s) eqn:Hmore; [|done].
    destruct (Burst.iteration wait_for_data n t sleep w s) as [[s'|e]|] eqn:Hi;
      try done.
    apply IH. eapply bi_iteration; eauto.
Qed.

Lemma burst_finished ws : forall s s',
  burst_inv s ->
  bloop ws s = Burst.Finished s' ->
  Burst.have_more_data s' = false.
Proof.
  induction ws as [|w ws IH]; intros s s' Hs; simpl.
  - destruct (Burst.have_more_data s) eqn:Hmore; [discriminate|].
    by intros [= <-].
  - destruct (Burst.have_more_data s) eqn:Hmore; [|by intros [= <-]].
    destruct (Burst.iteration wait_for_data n t sleep w s) as [[s1|e]|] eqn:Hi;
      try done.
    + apply IH. eapply bi_iteration; eauto.
    + exfalso. revert Hi. unfold Burst.iteration.
      destruct (bi_state _ _ _ _ Hs) as [-> | [-> | ->]]; simpl; discriminate.
Qed.

(** X12: on every script the burst client sends the packets of 0, 1, 2,
    ... in that order, each once, with the payload the data source has for
    it, writes one trace row per packet in the same order, and has slept
    [t] seconds once for every multiple of [n] among the numbers it has
    sent or is about to send. *)
Theorem burst_sends_in_order t0 ws :
  Burst.sent (burst_final (bmain t0 ws))
  = rev (frames 0 (Z.to_nat (Burst.seqno (burst_final (bmain t0 ws))))) /\
  length (Burst.sent (burst_final (bmain t0 ws)))
  = Z.to_nat (Burst.seqno (burst_final (bmain t0 ws))) /\
  map r_seqno (rev (Burst.traced (burst_final (bmain t0 ws))))
  = seqZ 0 (Burst.seqno (burst_final (bmain t0 ws))) /\
  Burst.slept (burst_final (bmain t0 ws))
  = replicate
      (length
         (burst_starts
            (Burst.seqno (burst_final (bmain t0 ws))
             + (if Burst.state (burst_final (bmain t0 ws)) =? 2
                then 1 else 0))))
      t.
Proof.
  pose proof (bi_main_loop ws _ (bi_init t0)) as [].
  unfold Burst.main. auto.
Qed.

(** X13: the burst client leaves its loop only when the data source has
    answered end of data; it has then slept once for every multiple of [n]
    below the number of packets sent. *)
Theorem burst_finished_means_done t0 ws s :
  bmain t0 ws = Burst.Finished s ->
  wait_for_data (Burst.seqno s) = None /\
  length (Burst.sent s) = Z.to_nat (Burst.seqno s) /\
  Burst.slept s = replicate (length (burst_starts (Burst.seqno s))) t.
Proof.
  intros H.
  pose proof (burst_finished ws _ _ (bi_init t0) H) as Hmore.
  pose proof (bi_main_loop ws _ (bi_init t0)) as Hinv.
  unfold Burst.main in H. rewrite H in Hinv. simpl in Hinv. destruct Hinv.
  destruct (bi_done0 Hmore) as [Hst Hd].
  split; [done|]. split; [done|].
  rewrite bi_slept0, Hst. simpl. by rewrite Z.add_0_r.
Qed.

(** X14: with a burst size of 0 the client stops with [ZeroDivisionError]
    at [seqno % n] as soon as the data source has a first chunk, before
    anything is sent. *)
Theorem burst_size_zero t0 w ws p :
  n = 0 ->
  wait_for_data 0 = Some p ->
  bmain t0 (w :: ws) = Burst.Crashed ZeroDivisionError (Burst.init t0).
Proof.
  intros -> Hp. unfold Burst.main. simpl.
  unfold Burst.iteration, Burst.state0. simpl. by rewrite Hp.
Qed.

(** X17: a gap that [time.sleep] refuses ends the burst client before it
    has sent anything.  With a burst size other than 0 and data for number
    0, the first iteration fetches the data and the second raises what
    [time.sleep(t)] raises: no datagram has been handed to [sendto]. *)
Theorem burst_sleep_raises t0 w0 w1 ws p e :
  n <> 0 ->
  wait_for_data 0 = Some p ->
  sleep t = Some e ->
  exists s,
    bmain t0 (w0 :: w1 :: ws) = Burst.Crashed e s /\
    Burst.state s = 1 /\
    Burst.sent s = [] /\
    Burst.slept s = [].
Proof.
  intros Hn Hp Hsl. unfold Burst.main. simpl.
  unfold Burst.iteration at 1. unfold Burst.state0. simpl. rewrite Hp.
  destruct (Z.eqb_spec n 0) as [|_]; [done|].
  rewrite Z.mod_0_l by done. simpl.
  unfold Burst.iteration, Burst.state1. simpl. rewrite Hsl.
  eexists. split; [reflexivity|]. done.
Qed.

End BurstFurther.

(** X13, witness: three chunks in bursts of 2. *)
Lemma burst_finished_means_done_witness :
  Scenario.chunks 3
    (Burst.seqno
       (Further.burst_final
          (Burst.main (Scenario.chunks 3) 2 0.125 Scenario.sleep 100
             Scenario.script_ticks)))
  = None /\
  length
    (Burst.sent
       (Further.burst_final
          (Burst.main (Scenario.chunks 3) 2 0.125 Scenario.sleep 100
             Scenario.script_ticks)))
  = Z.to_nat
      (Burst.seqno
         (Further.burst_final
            (Burst.main (Scenario.chunks 3) 2 0.125 Scenario.sleep 100
             Scenario.script_ticks))) /\
  Burst.slept
    (Further.burst_final
       (Burst.main (Scenario.chunks 3) 2 0.125 Scenario.sleep 100
             Scenario.script_ticks))
  = replicate
      (length
         (Further.burst_starts 2
            (Burst.seqno
               (Further.burst_final
                  (Burst.main (Scenario.chunks 3) 2 0.125 Scenario.sleep 100
                     Scenario.script_ticks)))))
      0.125%float.
Proof.
  apply (burst_finished_means_done (Scenario.chunks 3) 2 0.125
           Scenario.sleep 100 Scenario.script_ticks).
  vm_compute. reflexivity.
Defined.

(** X14, witness: [python client_burst1.py host port 0 0.125]. *)
Lemma burst_size_zero_witness :
  Burst.main (Scenario.chunks 3) 0 0.125 Scenario.sleep 100
    Scenario.script_ticks
  = Burst.Crashed ZeroDivisionError (Burst.init 100).
Proof.
  apply (burst_size_zero (Scenario.chunks 3) 0 0.125 Scenario.sleep 100
           (Scenario.tick 100) (tail Scenario.script_ticks) [Byte.x61]).
  - reflexivity.
  - reflexivity.
Defined.

(** X17, witness: [python client_burst1.py host port 2 -1]. *)
Lemma burst_sleep_raises_witness :
  exists s,
    Burst.main (Scenario.chunks 3) 2 (-1) Scenario.sleep 100
      Scenario.script_ticks
    = Burst.Crashed ValueError s /\
    Burst.state s = 1 /\
    Burst.sent s = [] /\
    Burst.slept s = [].
Proof.
  apply (burst_sleep_raises (Scenario.chunks 3) 2 (-1) Scenario.sleep 100
           (Scenario.tick 100) (Scenario.tick 101)
           (drop 2 Scenario.script_ticks) [Byte.x61] ValueError).
  - discriminate.
  - reflexivity.
  - vm_compute. reflexivity.
Defined.

(** ** The command lines *)

Section CliFacts.
Variable arg : Type.
Variable int_of : arg -> option Z.
Variable float_of : arg -> option float.
Local Abbreviation tahoe := (Cli.tahoe arg int_of float_of).
Local Abbreviation burst1 := (Cli.burst1 arg int_of float_of).
Local Abbreviation saw := (Cli.saw arg int_of).

(** X15: [client_tahoe.py] reads [sys.argv[4]] but only checks that there
    are more than 3 entries.  Called with host, port and window size and
    no timeout, it gets past the usage message and stops with
    [IndexError]; [client_burst1.py], whose check asks for more than 4
    entries, prints its usage message on the same command line. *)
Theorem tahoe_missing_timeout prog host a2 a3 port n :
  int_of a2 = Some port ->
  int_of a3 = Some n ->
  tahoe [prog; host; a2; a3] = Cli.IndexError arg /\
  burst1 [prog; host; a2; a3] = Cli.Usage arg.
Proof.
  intros H2 H3. unfold Cli.tahoe, Cli.burst1, Cli.read_four, Cli.argv_at.
  simpl. unfold Cli.parsed. by rewrite H2, H3.
Qed.

(** X16: apart from that case the command lines never index out of range:
    [client_saw.py] and [client_burst1.py] never raise [IndexError], and
    [client_tahoe.py] raises it only when [sys.argv] has exactly 4
    entries.  A client is started only with every argument it reads
    present and parsed. *)
Theorem cli_index_errors argv :
  saw argv <> Cli.IndexError arg /\
  burst1 argv <> Cli.IndexError arg /\
  (tahoe argv = Cli.IndexError arg -> length argv = 4%nat) /\
  (forall host port rest,
     tahoe argv = Cli.Run arg host port rest ->
     (5 <= length argv)%nat /\
     exists a2 a3 a4 n t,
       argv !! 1%nat = Some host /\
       argv !! 2%nat = Some a2 /\ int_of a2 = Some port /\
       argv !! 3%nat = Some a3 /\ int_of a3 = Some n /\
       argv !! 4%nat = Some a4 /\ float_of a4 = Some t /\
       rest = Some (n, t)).
Proof.
  unfold Cli.saw, Cli.burst1, Cli.tahoe, Cli.read_four, Cli.argv_at, Cli.parsed.
  split; [|split; [|split]].
  - destruct argv as [|a0 [|a1 [|a2 rest']]]; simpl; try discriminate.
    destruct (int_of a2); discriminate.
  - destruct argv as [|a0 [|a1 [|a2 [|a3 [|a4 rest']]]]]; simpl;
      try discriminate.
    destruct (int_of a2); [|discriminate].
    destruct (int_of a3); [|discriminate].
    destruct (float_of a4); discriminate.
  - destruct argv as [|a0 [|a1 [|a2 [|a3 [|a4 rest']]]]]; simpl;
      try discriminate; try done.
    destruct (int_of a2); [|discriminate].
    destruct (int_of a3); [|discriminate].
    destruct (float_of a4); discriminate.
  - intros host port rest.
    destruct argv as [|a0 [|a1 [|a2 [|a3 [|a4 rest']]]]]; simpl;
      try discriminate.
    + destruct (int_of a2); [|discriminate].
      destruct (int_of a3); discriminate.
    + destruct (int_of a2) as [p|] eqn:E2; [|discriminate].
      destruct (int_of a3) as [m|] eqn:E3; [|discriminate].
      destruct (float_of a4) as [f|] eqn:E4; [|discriminate].
      intros [= <- <- <-]. split; [lia|].
      exists a2, a3, a4, m, f. repeat split; assumption.
Qed.

End CliFacts.

(** X15, witness: four entries, with the identity as the integer parser. *)
Lemma tahoe_missing_timeout_witness :
  Cli.tahoe Z Some (fun _ => None) [0; 1; 6000; 50] = Cli.IndexError Z /\
  Cli.burst1 Z Some (fun _ => None) [0; 1; 6000; 50] = Cli.Usage Z.
Proof.
  apply (tahoe_missing_timeout Z Some (fun _ => None) 0 1 6000 50 6000 50).
  - reflexivity.
  - reflexivity.
Defined.
